(** * HighMap, scripts/tiny_pyviewer/tools.py: heightmap to triangle mesh,
      and the composition of the scene that displays it.

    The development embeds the two functions of [tools.py]:
    - [hmap_to_trimesh], the mesh builder.  It is written in a small
      state-and-exception monad: the state is the caller's height array [z],
      which the skirt edit overwrites in place, and an exception keeps the
      writes made before it was raised.
    - [show], the scene composer.  It talks to collaborators that are not part
      of the repository (pyrender, matplotlib, the C math library), so it is a
      program tree whose nodes are the calls it makes, in order.

    Beside them stand the script that uses both, [viewer.py], from the point
    where the samples have been read, and the two maintenance scripts,
    [add_license_header.py] and [generate_cmakelists_examples.py], as
    functions of the texts and paths the file system gives them.

    Where the model ends:
    - NumPy is NumPy 1.x ([ndarray.ptp] exists), arrays hold floats of one
      precision, and every NumPy function is modelled by what it computes on
      the arguments [tools.py] gives it.
    - [trimesh.Trimesh] is the record of the vertices and faces it receives;
      what the constructor then does to them is not modelled.
    - The collaborators of [show] answer; an exception raised inside one of
      them is not modelled.

    Numbers are kept behind the interface [Float].  Two instances are given:
    IEEE binary64 (the kernel's primitive floats, what NumPy computes with) and
    the real numbers (rounding ignored, for the statements that the sources
    qualify by a floating tolerance). *)

From Stdlib Require Import String DecimalString ZArith List Bool Lia Floats Uint63 Reals Lra
  Permutation.
Import ListNotations.

Set Implicit Arguments.

(** ** Exceptions *)

(** The Python exceptions the statements of [tools.py] can raise, and the two
    error names of the specification, which no statement of [tools.py] raises. *)
Inductive exn : Type :=
| ValueError
| ZeroDivisionError
| IndexError
| NameError (name : string)
| InvalidShapeError
| EmptyMeshListError.

(** A computation either raises ([inl]) or returns ([inr]). *)
Definition result (A : Type) : Type := (exn + A)%type.

Definition raises {A : Type} (e : exn) (r : result A) : Prop := r = inl e.

Definition returns {A : Type} (r : result A) : Prop := exists a, r = inr a.

(** ** Numbers *)

(** The float operations [tools.py] uses.  [lit m e] is the Python literal
    written [m] times ten to the [e] ([0.05] is [lit 5 (-2)]); [fminimum] and
    [fmaximum] are the binary operations that [ndarray.min] and [ndarray.max]
    reduce with; [np_pi] is the constant [np.pi]. *)
Class Float (F : Type) : Type := {
  of_int : Z -> F;
  lit : Z -> Z -> F;
  fadd : F -> F -> F;
  fsub : F -> F -> F;
  fmul : F -> F -> F;
  fdiv : F -> F -> F;
  fopp : F -> F;
  feqb : F -> F -> bool;
  fminimum : F -> F -> F;
  fmaximum : F -> F -> F;
  np_pi : F
}.

Module Binary64.

(** Conversion of a Python int (exact below 2^53, rounded to nearest above). *)
Definition of_int (z : Z) : float :=
  if (z <? 0)%Z
  then PrimFloat.opp (PrimFloat.of_uint63 (Uint63.of_Z (- z)))
  else PrimFloat.of_uint63 (Uint63.of_Z z).

(** A decimal literal: for the short mantissas of the source the mantissa and
    the power of ten are exact, and one rounded division gives the float
    nearest to the decimal. *)
Definition lit (m e : Z) : float :=
  if (e <? 0)%Z
  then PrimFloat.div (of_int m) (of_int (10 ^ (- e)))
  else of_int (m * 10 ^ e).

(** NumPy's [minimum]: a NaN on the left is returned, a NaN on the right
    loses every comparison and is returned too. *)
Definition minimum (a b : float) : float :=
  if PrimFloat.is_nan a then a else if PrimFloat.ltb a b then a else b.

Definition maximum (a b : float) : float :=
  if PrimFloat.is_nan a then a else if PrimFloat.ltb b a then a else b.

Definition pi : float := 0x1.921fb54442d18p+1%float.

End Binary64.

#[export] Instance Float_binary64 : Float float := {|
  of_int := Binary64.of_int;
  lit := Binary64.lit;
  fadd := PrimFloat.add;
  fsub := PrimFloat.sub;
  fmul := PrimFloat.mul;
  fdiv := PrimFloat.div;
  fopp := PrimFloat.opp;
  feqb := PrimFloat.eqb;
  fminimum := Binary64.minimum;
  fmaximum := Binary64.maximum;
  np_pi := Binary64.pi
|}.

#[export] Instance Float_real : Float R := {|
  of_int := IZR;
  lit := fun m e => if (e <? 0)%Z then (IZR m / IZR (10 ^ (- e)))%R
                    else IZR (m * 10 ^ e);
  fadd := Rplus;
  fsub := Rminus;
  fmul := Rmult;
  fdiv := Rdiv;
  fopp := Ropp;
  feqb := fun a b => if Req_dec_T a b then true else false;
  fminimum := Rmin;
  fmaximum := Rmax;
  np_pi := PI
|}.

(** ** Arrays *)

(** A NumPy array in C order: its shape and its elements, row after row. *)
Record ndarray (F : Type) : Type := mk_ndarray {
  shape : list nat;
  data : list F
}.

Definition size_of_shape (s : list nat) : nat := fold_right Nat.mul 1 s.

(** The invariant NumPy maintains: as many elements as the shape says. *)
Definition wf {F : Type} (a : ndarray F) : Prop :=
  length (data a) = size_of_shape (shape a).

(** [a.flatten()]. *)
Definition flatten {F : Type} (a : ndarray F) : list F := data a.

(** [a[i, j]] of a 2-dimensional array, for in-range [i] and [j]. *)
Definition get2 {F : Type} (a : ndarray F) (i j : nat) : option F :=
  match shape a with
  | [_; ny] => nth_error (data a) (i * ny + j)
  | _ => None
  end.

Fixpoint mapi_from {A B : Type} (k : nat) (f : nat -> A -> B) (l : list A) : list B :=
  match l with
  | [] => []
  | a :: l' => f k a :: mapi_from (S k) f l'
  end.

(** Assignment of the scalar [v] to the entries [(i, j)] selected by [p]. *)
Definition mask_assign {F : Type} (ny : nat) (p : nat -> nat -> bool) (v : F)
    (a : ndarray F) : ndarray F :=
  {| shape := shape a;
     data := mapi_from 0 (fun k old => if p (k / ny) (k mod ny) then v else old)
                       (data a) |}.

(** A Python index into an axis of length [n]: negative indices count from the
    end, anything outside is an [IndexError]. *)
Definition py_index (n : nat) (i : Z) : result nat :=
  let i' := if (i <? 0)%Z then (i + Z.of_nat n)%Z else i in
  if ((0 <=? i') && (i' <? Z.of_nat n))%Z then inr (Z.to_nat i') else inl IndexError.

(** A Python slice [l[a:b]]: each bound is taken from the end when negative
    and clamped to the length; an empty or reversed range gives []. *)
Definition py_slice {A : Type} (a b : Z) (l : list A) : list A :=
  let n := Z.of_nat (length l) in
  let clamp i := if (i <? 0)%Z then Z.max 0 (i + n) else Z.min i n in
  let s := clamp a in
  let e := clamp b in
  firstn (Z.to_nat (e - s)) (skipn (Z.to_nat s) l).

(** [range(n)]. *)
Definition py_range (n : Z) : list Z := map Z.of_nat (seq 0 (Z.to_nat n)).

Fixpoint zip3 {A B C : Type} (a : list A) (b : list B) (c : list C) : list (A * B * C) :=
  match a, b, c with
  | x :: a', y :: b', z :: c' => (x, y, z) :: zip3 a' b' c'
  | _, _, _ => []
  end.

(** [np.vstack((a, b, c)).T] for 1-dimensional [a], [b], [c]: the rows
    [(a[k], b[k], c[k])]; stacking rows of different lengths is a
    [ValueError]. *)
Definition vstack3_T {A : Type} (a b c : list A) : result (list (A * A * A)) :=
  if ((length a =? length b) && (length b =? length c))%nat
  then inr (zip3 a b c)
  else inl ValueError.

(** ** The monad of the mesh builder *)

(** A computation over a mutable object of type [S]: it returns the object as
    it left it, and either an exception or a value.  An exception does not
    undo the writes made before it. *)
Definition M (S A : Type) : Type := S -> S * result A.

Definition ret {S A : Type} (a : A) : M S A := fun s => (s, inr a).

Definition bind {S A B : Type} (m : M S A) (k : A -> M S B) : M S B :=
  fun s =>
    match m s with
    | (s', inl e) => (s', inl e)
    | (s', inr a) => k a s'
    end.

(** A computation that does not touch the object. *)
Definition lift {S A : Type} (r : result A) : M S A := fun s => (s, r).

(** A computation that reads the object. *)
Definition read {S A : Type} (f : S -> result A) : M S A := fun s => (s, f s).

(** A computation that replaces the object, unless it raises. *)
Definition write {S : Type} (f : S -> result S) : M S unit :=
  fun s =>
    match f s with
    | inl e => (s, inl e)
    | inr s' => (s', inr tt)
    end.

Declare Scope py_scope.
Delimit Scope py_scope with py.
Notation "x <- m ;; k" := (bind m (fun x => k))
  (at level 61, m at next level, right associativity) : py_scope.
Notation "' p <- m ;; k" := (bind m (fun p => k))
  (at level 61, p pattern, m at next level, right associativity) : py_scope.
Notation "m ;; k" := (bind m (fun _ => k))
  (at level 61, right associativity) : py_scope.

(** ** The mesh builder *)

(** What [hmap_to_trimesh] hands to the constructor [trimesh.Trimesh]: the
    vertex rows [(x, y, z)] and the faces, triples of vertex indices. *)
Record Trimesh (F : Type) : Type := mk_Trimesh {
  vertices : list (F * F * F);
  faces : list (Z * Z * Z)
}.

(** The arguments [x] and [y].  [x is None] selects the synthesized lattice
    and [y] is then not read; otherwise both go to [np.meshgrid]. *)
Inductive axes (F : Type) : Type :=
| NoAxes
| Axes (x y : ndarray F).
Arguments NoAxes {F}.

Section Builder.

Context {F : Type} {FL : Float F}.

(** [nx, ny = z.shape]: unpacking anything but two values is a [ValueError]. *)
Definition unpack_shape (z : ndarray F) : result (nat * nat) :=
  match shape z with
  | [nx; ny] => inr (nx, ny)
  | _ => inl ValueError
  end.

(** A reduction without identity, taken in storage order: a [ValueError] on
    an array of size zero. *)
Definition reduce (op : F -> F -> F) (l : list F) : result F :=
  match l with
  | [] => inl ValueError
  | a :: l' => inr (fold_left op l' a)
  end.

(** [z.min()] and [z.max()]. *)
Definition amin (z : ndarray F) : result F := reduce fminimum (data z).

Definition amax (z : ndarray F) : result F := reduce fmaximum (data z).

(** [z.ptp()], peak to peak: the maximum minus the minimum. *)
Definition ptp (z : ndarray F) : result F :=
  match amax z, amin z with
  | inr hi, inr lo => inr (fsub hi lo)
  | inl e, _ => inl e
  | _, inl e => inl e
  end.

(** [z[i, :] = v]. *)
Definition assign_row (i : Z) (v : F) (z : ndarray F) : result (ndarray F) :=
  match shape z with
  | [nx; ny] =>
      match py_index nx i with
      | inr r => inr (mask_assign ny (fun a _ => a =? r) v z)
      | inl e => inl e
      end
  | _ => inl IndexError
  end.

(** [z[:, j] = v]. *)
Definition assign_col (j : Z) (v : F) (z : ndarray F) : result (ndarray F) :=
  match shape z with
  | [nx; ny] =>
      match py_index ny j with
      | inr c => inr (mask_assign ny (fun _ b => b =? c) v z)
      | inl e => inl e
      end
  | _ => inl IndexError
  end.

(** [a / b] on Python ints: true division, a float. *)
Definition py_truediv (a b : Z) : result F :=
  if (b =? 0)%Z then inl ZeroDivisionError else inr (fdiv (of_int a) (of_int b)).

(** [y[-1] = v]. *)
Definition set_last (y : list F) (v : F) : list F := removelast y ++ [v].

(** [np.linspace(start, stop, num)], endpoint included, as NumPy computes it:
    the integers [0 .. num-1] scaled by the step (or, when the step is zero,
    divided by [num-1] and scaled by the span), shifted by [start], and, for
    more than one sample, the last sample overwritten by [stop] itself. *)
Definition linspace (start stop : F) (num : nat) : list F :=
  let div := (Z.of_nat num - 1)%Z in
  let delta := fsub stop start in
  let y := map (fun k => of_int (Z.of_nat k)) (seq 0 num) in
  let y :=
    if (0 <? div)%Z then
      let step := fdiv delta (of_int div) in
      if feqb step (of_int 0)
      then map (fun v => fmul (fdiv v (of_int div)) delta) y
      else map (fun v => fmul v step) y
    else map (fun v => fmul v delta) y in
  let y := map (fun v => fadd v start) y in
  if (1 <? num)%nat then set_last y stop else y.

(** [np.meshgrid(x, y, indexing='ij')]: both arguments are first reshaped to
    one dimension, whatever their shape; the two results have one row per
    element of [x] and one column per element of [y]. *)
Definition meshgrid_ij (x y : ndarray F) : ndarray F * ndarray F :=
  let xs := flatten x in
  let ys := flatten y in
  let sh := [length xs; length ys] in
  ({| shape := sh; data := flat_map (fun a => repeat a (length ys)) xs |},
   {| shape := sh; data := flat_map (fun _ => ys) xs |}).

(** [np.linspace(0, nn - 1, nn).astype(int)]: the step is exactly 1.0, so the
    samples are the integers [0 .. nn-1] (exact in binary64 below 2^53). *)
Definition vertex_indices (nn : Z) : list Z := py_range nn.

(** The body of [for j in range(nx - 1)]: the two blocks of faces of strip
    [j], each a stack of three slices of [idx]. *)
Definition strip_faces (ny : Z) (idx : list Z) (j : Z) : result (list (Z * Z * Z)) :=
  let i1 := (j * ny)%Z in
  match vstack3_T (py_slice i1 (i1 + ny - 1) idx)
                  (py_slice (i1 + ny + 1) (i1 + 2 * ny) idx)
                  (py_slice (i1 + 1) (i1 + ny) idx) with
  | inl e => inl e
  | inr upper =>
      match vstack3_T (py_slice i1 (i1 + ny - 1) idx)
                      (py_slice (i1 + ny) (i1 + 2 * ny - 1) idx)
                      (py_slice (i1 + ny + 1) (i1 + 2 * ny) idx) with
      | inl e => inl e
      | inr lower => inr (upper ++ lower)
      end
  end.

(** The loop, with [faces] as its accumulator ([faces += ...]). *)
Fixpoint face_loop (ny : Z) (idx : list Z) (js : list Z) (faces : list (Z * Z * Z))
    : result (list (Z * Z * Z)) :=
  match js with
  | [] => inr faces
  | j :: js' =>
      match strip_faces ny idx j with
      | inl e => inl e
      | inr fs => face_loop ny idx js' (faces ++ fs)
      end
  end.

(** The coordinate grids: synthesized over
    [0, nx / max(nx, ny)] x [0, ny / max(nx, ny)] when [x is None], and
    otherwise whatever [np.meshgrid] makes of the arguments. *)
Definition coordinate_grids (nx ny : Z) (ax : axes F) : result (ndarray F * ndarray F) :=
  match ax with
  | NoAxes =>
      match py_truediv nx (Z.max nx ny) with
      | inl e => inl e
      | inr sx =>
          match py_truediv ny (Z.max nx ny) with
          | inl e => inl e
          | inr sy =>
              inr (meshgrid_ij
                     {| shape := [Z.to_nat nx]; data := linspace (of_int 0) sx (Z.to_nat nx) |}
                     {| shape := [Z.to_nat ny]; data := linspace (of_int 0) sy (Z.to_nat ny) |})
          end
      end
  | Axes x y => inr (meshgrid_ij x y)
  end.

(** The skirt edit: the floor value from the data as it is, then the four
    border assignments. *)
Definition add_skirt_edit (nx ny : Z) : M (ndarray F) unit :=
  (zmin <- read amin ;;
   zptp <- read ptp ;;
   let z0 := fsub zmin (fmul (lit 5 (-2)) zptp) in
   write (assign_row 0 z0) ;;
   write (assign_row (nx - 1) z0) ;;
   write (assign_col 0 z0) ;;
   write (assign_col (ny - 1) z0))%py.

Definition hmap_to_trimesh_body (ax : axes F) (add_skirt : bool) : M (ndarray F) (Trimesh F) :=
  ('(nx, ny) <- read unpack_shape ;;
   let nx := Z.of_nat nx in
   let ny := Z.of_nat ny in
   (if add_skirt then add_skirt_edit nx ny else ret tt) ;;
   '(x, y) <- lift (coordinate_grids nx ny ax) ;;
   zf <- read (fun z => inr (flatten z)) ;;
   xyz <- lift (vstack3_T (flatten x) (flatten y) zf) ;;
   let nn := (nx * ny)%Z in
   let idx := vertex_indices nn in
   faces <- lift (face_loop ny idx (py_range (nx - 1)) []) ;;
   ret {| vertices := xyz; faces := faces |})%py.

(** [hmap_to_trimesh(z, x, y, add_skirt)]: the height array as the call leaves
    it, and the mesh or the exception. *)
Definition hmap_to_trimesh (z : ndarray F) (ax : axes F) (add_skirt : bool)
    : ndarray F * result (Trimesh F) :=
  hmap_to_trimesh_body ax add_skirt z.

End Builder.


(** ** Closed forms for the mesh builder *)

(** The two triangles of the grid cell whose first corner has flattened
    index [i], in a grid with [ny] columns. *)
Definition upper_triangle (ny i : Z) : Z * Z * Z := (i, i + ny + 1, i + 1)%Z.

Definition lower_triangle (ny i : Z) : Z * Z * Z := (i, i + ny, i + ny + 1)%Z.

(** Flattened index of the sample in row [r] and column [c]. *)
Definition flat_index (ny r c : nat) : Z := Z.of_nat (r * ny + c).

(** The faces of strip [j], in the order the loop body appends them: the
    upper triangles of its cells, then the lower ones. *)
Definition strip_triangles (ny j : nat) : list (Z * Z * Z) :=
  map (fun k => upper_triangle (Z.of_nat ny) (flat_index ny j k)) (seq 0 (ny - 1)) ++
  map (fun k => lower_triangle (Z.of_nat ny) (flat_index ny j k)) (seq 0 (ny - 1)).

(** The face list of an [nx] by [ny] grid. *)
Definition grid_faces (nx ny : nat) : list (Z * Z * Z) :=
  flat_map (strip_triangles ny) (seq 0 (nx - 1)).

(** Every index of the face [f] is a vertex index of a mesh with [nn]
    vertices. *)
Definition face_in_range (nn : nat) (f : Z * Z * Z) : Prop :=
  let '(a, b, c) := f in
  (0 <= a < Z.of_nat nn)%Z /\ (0 <= b < Z.of_nat nn)%Z /\ (0 <= c < Z.of_nat nn)%Z.

(** The sample [(i, j)] lies in the first or last row or column. *)
Definition on_border (nx ny i j : nat) : bool :=
  (i =? 0) || (i =? nx - 1) || (j =? 0) || (j =? ny - 1).

(** Axes that [np.meshgrid] expands to the shape of an [nx] by [ny] height
    array: [x] with [nx] elements and [y] with [ny], or none at all. *)
Definition axes_fit {F : Type} (nx ny : nat) (ax : axes F) : Prop :=
  match ax with
  | NoAxes => True
  | Axes x y => length (data x) = nx /\ length (data y) = ny
  end.

Section BuilderClosedForms.

Context {F : Type} {FL : Float F}.

(** The floor value of the skirt, [z.min() - 0.05 * z.ptp()], from the data
    of [z]. *)
Definition skirt_floor (z : ndarray F) : result F :=
  match amin z, ptp z with
  | inr lo, inr span => inr (fsub lo (fmul (lit 5 (-2)) span))
  | inl e, _ => inl e
  | _, inl e => inl e
  end.

(** The array after the four border assignments with the value [z0]. *)
Definition skirted (nx ny : nat) (z0 : F) (z : ndarray F) : ndarray F :=
  mask_assign ny (fun _ b => b =? ny - 1) z0
    (mask_assign ny (fun _ b => b =? 0) z0
       (mask_assign ny (fun a _ => a =? nx - 1) z0
          (mask_assign ny (fun a _ => a =? 0) z0 z))).

(** The coordinate columns of the vertex list, before they are zipped with
    the heights. *)
Definition grid_columns (nx ny : nat) (ax : axes F) : list F * list F :=
  let '(x, y) :=
    match ax with
    | NoAxes =>
        meshgrid_ij
          {| shape := [nx];
             data := linspace (of_int 0)
                       (fdiv (of_int (Z.of_nat nx)) (of_int (Z.max (Z.of_nat nx) (Z.of_nat ny))))
                       nx |}
          {| shape := [ny];
             data := linspace (of_int 0)
                       (fdiv (of_int (Z.of_nat ny)) (of_int (Z.max (Z.of_nat nx) (Z.of_nat ny))))
                       ny |}
    | Axes x y => meshgrid_ij x y
    end in
  (flatten x, flatten y).

(** What follows the skirt edit reads the height array and writes nothing:
    the grids, the vertex rows, the faces. *)
Definition assemble (nx ny : Z) (ax : axes F) (z : ndarray F) : result (Trimesh F) :=
  match coordinate_grids nx ny ax with
  | inl e => inl e
  | inr (x, y) =>
      match vstack3_T (flatten x) (flatten y) (flatten z) with
      | inl e => inl e
      | inr xyz =>
          match face_loop ny (vertex_indices (nx * ny)) (py_range (nx - 1)) [] with
          | inl e => inl e
          | inr fs => inr {| vertices := xyz; faces := fs |}
          end
      end
  end.

(** The height array as a call on an [nx] by [ny] array leaves it. *)
Definition final_array (sk : bool) (nx ny : nat) (z : ndarray F) : ndarray F :=
  if sk then
    match skirt_floor z with
    | inr z0 => skirted nx ny z0 z
    | inl _ => z
    end
  else z.

(** The mesh built from an [nx] by [ny] array with at least one sample. *)
Definition built_mesh (sk : bool) (nx ny : nat) (ax : axes F) (z : ndarray F) : Trimesh F :=
  {| vertices := zip3 (fst (grid_columns nx ny ax)) (snd (grid_columns nx ny ax))
                      (flatten (final_array sk nx ny z));
     faces := grid_faces nx ny |}.

End BuilderClosedForms.

(** Point [k] of [n] evenly spaced real points from 0 to [s], both included. *)
Definition lattice_point (s : R) (n k : nat) : R := (INR k * s / INR (n - 1))%R.

(** ** Programs that call collaborators *)

(** A program: it returns, raises, or makes a call of the family [C] and goes
    on with the answer.  The calls of a run are read off the tree in order. *)
Inductive prog (C : Type -> Type) (A : Type) : Type :=
| Return (a : A)
| Raise (e : exn)
| Call (X : Type) (c : C X) (k : X -> prog C A).
Arguments Return {C A} a.
Arguments Raise {C A} e.
Arguments Call {C A X} c k.

Fixpoint pbind {C : Type -> Type} {A B : Type} (p : prog C A) (k : A -> prog C B)
    : prog C B :=
  match p with
  | Return a => k a
  | Raise e => Raise e
  | Call c k' => Call c (fun x => pbind (k' x) k)
  end.

(** One call, returning its answer. *)
Definition call {C : Type -> Type} {X : Type} (c : C X) : prog C X := Call c Return.

(** Some run of the program, for some answers of the collaborators, raises [e]. *)
Fixpoint may_raise {C : Type -> Type} {A : Type} (e : exn) (p : prog C A) : Prop :=
  match p with
  | Return _ => False
  | Raise e' => e' = e
  | Call c k => exists x, may_raise e (k x)
  end.

Declare Scope prog_scope.
Delimit Scope prog_scope with prog.
Notation "x <- p ;; k" := (pbind p (fun x => k))
  (at level 61, p at next level, right associativity) : prog_scope.
Notation "' q <- p ;; k" := (pbind p (fun q => k))
  (at level 61, q pattern, p at next level, right associativity) : prog_scope.
Notation "p ;; k" := (pbind p (fun _ => k))
  (at level 61, right associativity) : prog_scope.

(** ** The scene composer *)

(** A [trimesh.Trimesh] object as [show] reads it: the geometry it was
    constructed from, and its attribute [centroid], which the trimesh library
    derives from the geometry. *)
Record mesh_object (F : Type) : Type := mk_mesh_object {
  geometry : Trimesh F;
  centroid : F * F * F
}.

(** The argument [mesh]: "singleton or list". *)
Inductive mesh_arg (F : Type) : Type :=
| One (m : mesh_object F)
| Many (ms : list (mesh_object F)).

(** [pyrender.SpotLight(color, intensity, innerConeAngle, outerConeAngle)]. *)
Record spot_light (F : Type) : Type := mk_spot_light {
  color : F * F * F;
  intensity : F;
  innerConeAngle : F;
  outerConeAngle : F
}.

(** What [scene.add] puts into the scene: a mesh made by
    [pyrender.Mesh.from_trimesh(m, smooth=...)], a perspective camera with its
    vertical field of view and pose, a light with its pose. *)
Inductive node (F : Type) : Type :=
| MeshNode (m : mesh_object F) (smooth : bool)
| CameraNode (yfov : F) (pose : list (list F))
| LightNode (light : spot_light F) (pose : list (list F)).

(** [pyrender.Scene(ambient_light, bg_color)] and the nodes added so far. *)
Record scene (F : Type) : Type := mk_scene {
  ambient_light : list F;
  bg_color : Z * Z * Z;
  nodes : list (node F)
}.

(** A pixel buffer: rows of pixels of channel values. *)
Definition image : Type := list (list (list Z)).

Inductive render_flag : Type := SHADOWS_SPOT.

(** The calls [show] makes, with what each answers. *)
Inductive call_of (F : Type) : Type -> Type :=
| Print (text : string) : call_of F unit
  (** [pyrender.Viewer(scene, ...)]: the interactive session; it answers when
      the user quits, with the viewer, of which [show] reads the camera
      node's matrix. *)
| Viewer (sc : scene F) (viewport_size : Z * Z)
         (use_direct_lighting cull_faces shadows show_world_axis : bool)
         (rotate_rate : F) : call_of F (list (list F))
| NpSqrt (x : F) : call_of F F
| NpTan (x : F) : call_of F F
| NpCos (x : F) : call_of F F
| NpSin (x : F) : call_of F F
| SetEnviron (key value : string) : call_of F unit
  (** [pyrender.OffscreenRenderer(viewport_width, viewport_height)] and its
      [render(scene, flags)]: the color image and the depth buffer. *)
| OffscreenRender (viewport_width viewport_height : Z) (sc : scene F)
                  (flags : render_flag) : call_of F (image * list (list F))
| RendererDelete : call_of F unit
| PltFigure : call_of F unit
| PltAxis (arg : string) : call_of F unit
| PltImshow (img : image) : call_of F unit.
Arguments RendererDelete {F}.
Arguments PltFigure {F}.

(** The names bound at module level in [tools.py]: its three imports and its
    three functions. *)
Definition tools_globals : list string :=
  ["np"; "pyrender"; "trimesh"; "hmap_to_trimesh"; "show"; "print_keyboard_cmds"]%string.

(** The text [print_keyboard_cmds] prints. *)
Definition keyboard_cmds : string :=
"
    a: Toggles rotational animation mode.
    c: Toggles backface culling.
    f: Toggles fullscreen mode.
    h: Toggles shadow rendering.
    i: Toggles axis display mode (no axes, world axis, mesh axes, all axes).
    l: Toggles lighting mode (scene lighting, Raymond lighting, or direct lighting).
    m: Toggles face normal visualization.
    n: Toggles vertex normal visualization.
    o: Toggles orthographic mode.
    q: Quits the viewer.
    r: Starts recording a GIF, and pressing again stops recording and opens a file dialog.
    s: Opens a file dialog to save the current view as an image.
    w: Toggles wireframe mode (scene default, flip wireframes, all wireframe, or all solid).
    z: Resets the camera to the initial view.
    ".

Section Composer.

Context {F : Type} {FL : Float F}.

(** Evaluation of a module-level name that is neither local nor a builtin:
    a [NameError] unless the module binds it. *)
Definition global_name (name : string) : prog (call_of F) unit :=
  if existsb (String.eqb name) tools_globals then Return tt else Raise (NameError name).

Definition print_keyboard_cmds : prog (call_of F) unit := call (Print F keyboard_cmds).

(** Element-wise operations on arrays of three floats. *)
Definition vadd (a b : F * F * F) : F * F * F :=
  let '(a0, a1, a2) := a in
  let '(b0, b1, b2) := b in
  (fadd a0 b0, fadd a1 b1, fadd a2 b2).

(** [s * a]. *)
Definition vscale (s : F) (a : F * F * F) : F * F * F :=
  let '(a0, a1, a2) := a in (fmul s a0, fmul s a1, fmul s a2).

(** [a /= n] for an int [n]: float division, element by element; a zero
    divisor gives NaNs and infinities with a warning, not an exception. *)
Definition vdiv_int (a : F * F * F) (n : Z) : F * F * F :=
  let '(a0, a1, a2) := a in
  (fdiv a0 (of_int n), fdiv a1 (of_int n), fdiv a2 (of_int n)).

(** [np.zeros(3)]. *)
Definition zeros3 : F * F * F := (lit 0 0, lit 0 0, lit 0 0).

Definition scene_add (sc : scene F) (n : node F) : scene F :=
  {| ambient_light := ambient_light sc;
     bg_color := bg_color sc;
     nodes := nodes sc ++ [n] |}.

Definition empty_scene : scene F :=
  {| ambient_light := [lit 2 (-1); lit 2 (-1); lit 2 (-1); lit 1 0];
     bg_color := (15, 15, 15)%Z;
     nodes := [] |}.

(** The loop [for m in mesh]: the centroid accumulated, the mesh wrapped and
    added to the scene. *)
Definition add_meshes (ms : list (mesh_object F)) (acc : scene F * (F * F * F))
    : scene F * (F * F * F) :=
  fold_left
    (fun '(sc, c) m => (scene_add sc (MeshNode m true), vadd c (centroid m)))
    ms acc.

(** The scene with its meshes, and [centroid] after [centroid /= len(mesh)]. *)
Definition compose_scene (ms : list (mesh_object F)) : scene F * (F * F * F) :=
  let '(sc, c) := add_meshes ms (empty_scene, zeros3) in
  (sc, vdiv_int c (Z.of_nat (length ms))).

(** [cp = np.eye(4); cp[:3, :3] = rot; cp[:3, 3] = t]. *)
Definition pose_matrix (rot : (F * F * F) * (F * F * F) * (F * F * F)) (t : F * F * F)
    : list (list F) :=
  let '(r0, r1, r2) := rot in
  let '(t0, t1, t2) := t in
  let row (r : F * F * F) (x : F) := let '(a, b, c) := r in [a; b; c; x] in
  [row r0 t0; row r1 t1; row r2 t2; [lit 0 0; lit 0 0; lit 0 0; lit 1 0]].

(** The offscreen branch of [show]. *)
Definition show_offscreen (sc : scene F) (centroid : F * F * F) (plot_image : bool)
    : prog (call_of F) (option image) :=
  (global_name "os" ;;
   call (SetEnviron F "PYOPENGL_PLATFORM" "egl") ;;
   let light := {| color := (lit 1 0, lit 1 0, lit 1 0);
                   intensity := lit 15 0;
                   innerConeAngle := fdiv np_pi (lit 25 (-1));
                   outerConeAngle := fdiv np_pi (of_int 2) |} in
   let yfov := fdiv np_pi (lit 3 0) in
   let scale := lit 9 (-1) in
   root2 <- call (NpSqrt (lit 2 0)) ;;
   let s2 := fdiv (lit 1 0) root2 in
   let rot := ((lit 0 0, fopp s2, s2), (lit 1 0, lit 0 0, lit 0 0), (lit 0 0, s2, s2)) in
   let hfov := fdiv np_pi (lit 6 0) in
   tan_hfov <- call (NpTan hfov) ;;
   let dist := fdiv scale (fmul (lit 2 0) tan_hfov) in
   let cam_pose :=
     pose_matrix rot (vadd (vscale dist (lit 1 0, lit 0 0, lit 1 0)) centroid) in
   let sc := scene_add sc (CameraNode yfov cam_pose) in
   let alpha := fmul (fdiv (of_int 45) (of_int 180)) np_pi in
   ca <- call (NpCos alpha) ;;
   sa <- call (NpSin alpha) ;;
   let rot := ((lit 0 0, sa, fopp ca), (fopp ca, lit 0 0, lit 0 0), (lit 0 0, lit 1 0, sa)) in
   let light_pose :=
     pose_matrix rot
       (vadd (vscale dist (lit 0 0, fopp (lit 15 (-1)), lit 15 (-1))) centroid) in
   let sc := scene_add sc (LightNode light light_pose) in
   '(img, depth) <- call (OffscreenRender (640 * 2) (480 * 2) sc SHADOWS_SPOT) ;;
   call RendererDelete ;;
   (if plot_image
    then global_name "plt" ;;
         call PltFigure ;;
         call (PltAxis F "off") ;;
         call (PltImshow F img)
    else Return tt) ;;
   Return (Some img))%prog.

(** [show(mesh, print_kcmds, offscreen, plot_image)]. *)
Definition show (mesh : mesh_arg F) (print_kcmds offscreen plot_image : bool)
    : prog (call_of F) (option image) :=
  let mesh := match mesh with One m => [m] | Many ms => ms end in
  let '(sc, centroid) := compose_scene mesh in
  ((if print_kcmds && negb offscreen then print_keyboard_cmds else Return tt) ;;
   if negb offscreen then
     cam_pose <- call (Viewer sc (800, 600)%Z true false false false
                              (fdiv np_pi (of_int 20))) ;;
     Return None
   else show_offscreen sc centroid plot_image)%prog.

End Composer.

(** ** Closed forms for the scene composer *)

Section ComposerClosedForms.

Context {F : Type} {FL : Float F}.

(** The unweighted average of a list of points: their sum, accumulated from
    [np.zeros(3)] in list order, divided by their number. *)
Definition unweighted_mean (cs : list (F * F * F)) : F * F * F :=
  vdiv_int (fold_left vadd cs zeros3) (Z.of_nat (length cs)).

(** The interactive session [show] opens on the scene [sc]. *)
Definition interactive_session (sc : scene F) : prog (call_of F) (option image) :=
  Call (Viewer sc (800, 600)%Z true false false false (fdiv np_pi (of_int 20)))
       (fun _ => Return None).

End ComposerClosedForms.

(** ** Sample inputs, in binary64 *)

Module Samples.

Open Scope float_scope.

(** A 2 by 3 height array. *)
Definition grid_2x3 : ndarray float :=
  {| shape := [2; 3]%nat; data := [1; 2; 3; 4; 5; 6] |}.

(** A 3 by 3 height array: one interior sample. *)
Definition grid_3x3 : ndarray float :=
  {| shape := [3; 3]%nat; data := [1; 2; 3; 4; 5; 6; 7; 8; 9] |}.

(** The 1 by 5 height array of the specification's error example. *)
Definition grid_1x5 : ndarray float :=
  {| shape := [1; 5]%nat; data := [1; 2; 3; 4; 5] |}.

(** A flat 2 by 2 height array with its full coordinate grids
    ([np.meshgrid([0, 1], [0, 1], indexing='ij')]). *)
Definition flat_2x2 : ndarray float :=
  {| shape := [2; 2]%nat; data := [0; 0; 0; 0] |}.

Definition full_x_2x2 : ndarray float :=
  {| shape := [2; 2]%nat; data := [0; 0; 1; 1] |}.

Definition full_y_2x2 : ndarray float :=
  {| shape := [2; 2]%nat; data := [0; 1; 0; 1] |}.

(** The flat 4 by 4 height array of zeros. *)
Definition zeros_4x4 : ndarray float :=
  {| shape := [4; 4]%nat; data := repeat 0 16 |}.

End Samples.

Module SampleMeshes.

Open Scope float_scope.

(** A unit square centred at the origin: four vertices, two faces. *)
Definition square_at_origin : mesh_object float :=
  {| geometry :=
       {| vertices := [(-0.5, -0.5, 0); (-0.5, 0.5, 0); (0.5, -0.5, 0); (0.5, 0.5, 0)];
          faces := [(0, 3, 1); (0, 2, 3)]%Z |};
     centroid := (0, 0, 0) |}.

(** A unit square centred at (10, 0, 0), split at its centre: five vertices,
    four faces. *)
Definition square_at_10 : mesh_object float :=
  {| geometry :=
       {| vertices := [(9.5, -0.5, 0); (9.5, 0.5, 0); (10.5, -0.5, 0); (10.5, 0.5, 0);
                       (10, 0, 0)];
          faces := [(0, 4, 1); (1, 4, 3); (3, 4, 2); (2, 4, 0)]%Z |};
     centroid := (10, 0, 0) |}.

End SampleMeshes.

Module RealSamples.

(** A flat 2 by 3 height array over the reals. *)
Definition flat_2x3 : ndarray R :=
  {| shape := [2; 3]; data := [0; 0; 0; 0; 0; 0]%R |}.

End RealSamples.

(** ** Geometry of a built mesh *)

(** The [(x, y)] coordinates of vertex [k] of a mesh, for an index in range. *)
Definition vertex_xy {F : Type} (m : Trimesh F) (k : Z) : option (F * F) :=
  if (k <? 0)%Z then None
  else option_map (fun v => fst v) (nth_error (vertices m) (Z.to_nat k)).

(** Twice the signed area of the triangle [p q r] in the plane: positive when
    the three points turn counter-clockwise. *)
Definition doubled_signed_area (p q r : R * R) : R :=
  ((fst q - fst p) * (snd r - snd p) - (fst r - fst p) * (snd q - snd p))%R.

(** ** The scene of a list of meshes *)

Section SceneOfMeshes.

Context {F : Type} {FL : Float F}.

(** The scene after the loop of [show]: one smooth mesh node per mesh, in the
    order of the list. *)
Definition scene_of (ms : list (mesh_object F)) : scene F :=
  {| ambient_light := ambient_light (@empty_scene F FL);
     bg_color := bg_color (@empty_scene F FL);
     nodes := map (fun m => MeshNode m true) ms |}.

End SceneOfMeshes.

(** ** The viewer script (viewer.py) *)

(** [str(n)] for a non-negative Python int. *)
Definition py_str_nat (n : nat) : string := NilZero.string_of_uint (Nat.to_uint n).

(** A raised exception or a returned value, as a program. *)
Definition of_result {C : Type -> Type} {A : Type} (r : result A) : prog C A :=
  match r with
  | inl e => Raise e
  | inr a => Return a
  end.

Section Viewer.

Context {F : Type} {FL : Float F}.

(** The attribute [centroid] that the trimesh library gives a mesh it has
    constructed: a computation of the library, not of the repository. *)
Variable trimesh_centroid : Trimesh F -> F * F * F.

(** [w.reshape((n, n))] of a 1-dimensional array: the same elements, unless
    their number is not [n * n], which is a [ValueError]. *)
Definition reshape_square (n : nat) (w : list F) : result (ndarray F) :=
  if n * n =? length w then inr {| shape := [n; n]; data := w |} else inl ValueError.

(** [0.2 * (w - w.min()) / (w.max() - w.min())]: a new array; the reductions
    raise on an array without elements. *)
Definition rescale (w : ndarray F) : result (ndarray F) :=
  match amin w, amax w with
  | inr lo, inr hi =>
      inr {| shape := shape w;
             data := map (fun v => fdiv (fmul (lit 2 (-1)) (fsub v lo)) (fsub hi lo))
                         (data w) |}
  | inl e, _ => inl e
  | _, inl e => inl e
  end.

(** The script from the point where the file is read: [fname] is the
    absolute path of the first argument and [w] the samples [np.fromfile]
    found in the file.  [int(np.sqrt(len(w)))] is the integer square root
    (the float square root is exact enough below 2^52 samples). *)
Definition viewer_main (fname : string) (w : list F) : prog (call_of F) (option image) :=
  (call (Print F ("fname: " ++ fname)) ;;
   let n := Nat.sqrt (length w) in
   w <- of_result (reshape_square n w) ;;
   call (Print F ("shape: (" ++ py_str_nat n ++ ", " ++ py_str_nat n ++ ")")) ;;
   w <- of_result (rescale w) ;;
   g <- of_result (snd (hmap_to_trimesh w NoAxes true)) ;;
   show (One {| geometry := g; centroid := trimesh_centroid g |}) true false true)%prog.

End Viewer.

(** ** Runs of a program *)

(** A call with its answer type packed. *)
Definition event (C : Type -> Type) : Type := {X : Type & C X}.

(** The run of a program against collaborators that answer each call [c]
    with [answer c]: the calls made, in order, and how the program ends. *)
Fixpoint run {C : Type -> Type} {A : Type} (answer : forall X, C X -> X) (p : prog C A)
    : list (event C) * result A :=
  match p with
  | Return a => ([], inr a)
  | Raise e => ([], inl e)
  | Call c k =>
      let '(calls, r) := run answer (k (answer _ c)) in
      (existT _ _ c :: calls, r)
  end.

(** ** The license header script (add_license_header.py) *)

Module License.

Open Scope string_scope.

Definition newline : Ascii.ascii := Ascii.ascii_of_nat 10.

(** [s.split('\n')[0]]: the text before the first newline, all of [s] when it
    has none. *)
Fixpoint first_line (s : string) : string :=
  match s with
  | EmptyString => EmptyString
  | String c s' => if Ascii.eqb c newline then EmptyString else String c (first_line s')
  end.

(** [STUB]: three lines of comment and an empty line. *)
Definition STUB : string :=
"/* Copyright (c) 2023 Otto Link. Distributed under the terms of the GNU General
 * Public License. The full license is in the file LICENSE, distributed with
 * this software. */

".

(** The test of the loop body, negated: the first line of the content is the
    first line of the header. *)
Definition has_header (content : string) : bool :=
  String.eqb (first_line content) (first_line STUB).

(** The loop body for one file, given its name and the text [read_text]
    returns: the lines printed, and the text written back, if any. *)
Definition license_file (name content : string) : list string * option string :=
  if has_header content
  then (["file:  " ++ name], None)
  else (["file:  " ++ name; "adding header..."], Some (STUB ++ content)).

(** The text of a file after the loop body. *)
Definition file_after (content : string) (written : option string) : string :=
  match written with
  | Some text => text
  | None => content
  end.

(** The loop over the files found under one path: the lines printed and the
    files as they are afterwards. *)
Definition license_path (path : string) (files : list (string * string))
    : list string * list (string * string) :=
  (("path:  " ++ path) :: flat_map (fun f => fst (license_file (fst f) (snd f))) files,
   map (fun f => (fst f, file_after (snd f) (snd (license_file (fst f) (snd f))))) files).

(** The script, given for each of its paths [include] and [src] the files
    that [rglob] finds there ([*.hpp], then [*.cpp]) with their texts. *)
Definition license_script (trees : list (string * list (string * string)))
    : list string * list (string * list (string * string)) :=
  (flat_map (fun t => fst (license_path (fst t) (snd t))) trees,
   map (fun t => (fst t, snd (license_path (fst t) (snd t)))) trees).

End License.

(** ** The CMakeLists generator (generate_cmakelists_examples.py) *)

Module CMake.

Open Scope string_scope.

Definition slash : Ascii.ascii := Ascii.ascii_of_nat 47.

(** [os.path.basename(p)]: what follows the last slash; [acc] is what was
    read since the last slash seen. *)
Fixpoint basename_from (acc p : string) : string :=
  match p with
  | EmptyString => acc
  | String c p' =>
      if Ascii.eqb c slash then basename_from EmptyString p'
      else basename_from (acc ++ String c EmptyString) p'
  end.

Definition basename (p : string) : string := basename_from EmptyString p.

(** [p] contains a slash. *)
Fixpoint has_slash (p : string) : bool :=
  match p with
  | EmptyString => false
  | String c p' => Ascii.eqb c slash || has_slash p'
  end.

Fixpoint ends_with_slash (p : string) : bool :=
  match p with
  | EmptyString => false
  | String c EmptyString => Ascii.eqb c slash
  | String _ p' => ends_with_slash p'
  end.

(** [os.path.join(d, name)] for a [name] that does not start with a slash. *)
Definition path_join (d name : string) : string :=
  match d with
  | EmptyString => name
  | _ => if ends_with_slash d then d ++ name else d ++ "/" ++ name
  end.

Definition LIB_NAME : string := "highmap".

(** [STUB.format(a, b, c, d)]. *)
Definition STUB_format (a b c d : string) : string :=
  "add_executable(" ++ a ++ " " ++ b ++ ".cpp)" ++ String License.newline
  ("target_link_libraries(" ++ c ++ " " ++ d ++ ")" ++ String License.newline EmptyString).

(** The loop body for one path [d] that [glob] found and [os.path.isdir]
    accepts: the path of the file written and its text. *)
Definition cmake_for_dir (d : string) : string * string :=
  let example_name := basename d in
  (path_join d "CMakeLists.txt",
   STUB_format example_name example_name example_name LIB_NAME).

(** The script, given the paths [glob] finds with, for each, whether it is a
    directory: the lines printed and the files written. *)
Definition cmake_script (found : list (string * bool))
    : list string * list (string * string) :=
  let dirs := map fst (filter snd found) in
  (dirs, map cmake_for_dir dirs).

End CMake.

(** ** More sample inputs *)

Module MoreSamples.

Open Scope float_scope.

(** A height array with two rows and no column. *)
Definition grid_2x0 : ndarray float := {| shape := [2; 0]%nat; data := [] |}.

(** Axes of two and of three elements. *)
Definition axis_2 : ndarray float := {| shape := [2]%nat; data := [10; 20] |}.

Definition axis_3 : ndarray float := {| shape := [3]%nat; data := [0; 1; 2] |}.

End MoreSamples.

Module MoreRealSamples.

Open Scope R_scope.

(** A 3 by 3 height array over the reals with one raised interior sample. *)
Definition bump_3x3 : ndarray R :=
  {| shape := [3; 3]%nat; data := [0; 0; 0; 0; 1; 0; 0; 0; 0] |}.

(** Two samples. *)
Definition pair_0_1 : ndarray R := {| shape := [2]%nat; data := [0; 1] |}.

(** The samples of a file of four. *)
Definition four_samples : list R := [0; 1; 2; 3].

(** Two meshes without geometry, placed at (0, 0, 0) and (10, 0, 0). *)
Definition point_at_origin : mesh_object R :=
  {| geometry := {| vertices := []; faces := [] |}; centroid := (0, 0, 0) |}.

Definition point_at_10 : mesh_object R :=
  {| geometry := {| vertices := []; faces := [] |}; centroid := (10, 0, 0) |}.

End MoreRealSamples.
(** * Properties *)

(** ** Lists, slices and index arithmetic *)

Lemma nth_error_mapi_from {A B : Type} (f : nat -> A -> B) (l : list A) :
  forall k n, nth_error (mapi_from k f l) n = option_map (f (k + n)) (nth_error l n).
Proof.
  induction l as [|a l IH]; intros k n.
  - destruct n; reflexivity.
  - destruct n as [|n]; simpl.
    + now rewrite Nat.add_0_r.
    + rewrite IH. now replace (S k + n) with (k + S n) by lia.
Qed.

Lemma length_mapi_from {A B : Type} (f : nat -> A -> B) (l : list A) :
  forall k, length (mapi_from k f l) = length l.
Proof.
  induction l as [|a l IH]; intros k; simpl; [reflexivity | now rewrite IH].
Qed.

Lemma cell_div (ny i j : nat) : j < ny -> (i * ny + j) / ny = i.
Proof.
  intros Hj. rewrite Nat.add_comm, Nat.div_add by lia.
  rewrite Nat.div_small by exact Hj. reflexivity.
Qed.

Lemma cell_mod (ny i j : nat) : j < ny -> (i * ny + j) mod ny = j.
Proof.
  intros Hj. rewrite Nat.add_comm, Nat.Div0.mod_add.
  now apply Nat.mod_small.
Qed.

Lemma cell_in_range (nx ny i j : nat) : i < nx -> j < ny -> i * ny + j < nx * ny.
Proof. nia. Qed.

Lemma length_zip3 {A B C : Type} (a : list A) :
  forall (b : list B) (c : list C),
    length b = length a -> length c = length a -> length (zip3 a b c) = length a.
Proof.
  induction a as [|x a IH]; intros [|y b] [|z c] Hb Hc; simpl in *; try discriminate;
    try reflexivity.
  f_equal. apply IH; lia.
Qed.

Lemma zip3_maps {A B C : Type} (f : nat -> A) (g : nat -> B) (h : nat -> C) (n : nat) :
  forall a b c,
    zip3 (map f (seq a n)) (map g (seq b n)) (map h (seq c n)) =
    map (fun k => (f (a + k), g (b + k), h (c + k))) (seq 0 n).
Proof.
  induction n as [|n IH]; intros a b c; simpl; [reflexivity|].
  rewrite !Nat.add_0_r. f_equal.
  rewrite IH, <- seq_shift, map_map.
  apply map_ext. intros k. now rewrite !Nat.add_succ_comm.
Qed.

Lemma map_fst_zip3 {A B C : Type} (a : list A) :
  forall (b : list B) (c : list C),
    length b = length a -> length c = length a ->
    map (fun v => fst (fst v)) (zip3 a b c) = a.
Proof.
  induction a as [|x a IH]; intros [|y b] [|z c] Hb Hc; simpl in *; try discriminate;
    try reflexivity.
  f_equal. apply IH; lia.
Qed.

Lemma map_snd_zip3 {A B C : Type} (a : list A) :
  forall (b : list B) (c : list C),
    length b = length a -> length c = length a ->
    map (fun v => snd (fst v)) (zip3 a b c) = b.
Proof.
  induction a as [|x a IH]; intros [|y b] [|z c] Hb Hc; simpl in *; try discriminate;
    try reflexivity.
  f_equal. apply IH; lia.
Qed.

Lemma map_trd_zip3 {A B C : Type} (a : list A) :
  forall (b : list B) (c : list C),
    length b = length a -> length c = length a ->
    map (fun v => snd v) (zip3 a b c) = c.
Proof.
  induction a as [|x a IH]; intros [|y b] [|z c] Hb Hc; simpl in *; try discriminate;
    try reflexivity.
  f_equal. apply IH; lia.
Qed.

Lemma skipn_seq (k : nat) : forall a n, skipn k (seq a n) = seq (a + k) (n - k).
Proof.
  induction k as [|k IH]; intros a n.
  - now rewrite Nat.add_0_r, Nat.sub_0_r.
  - destruct n as [|n]; simpl; [reflexivity|].
    rewrite IH. now rewrite Nat.add_succ_comm.
Qed.

Lemma firstn_seq (k : nat) : forall a n, firstn k (seq a n) = seq a (Nat.min k n).
Proof.
  induction k as [|k IH]; intros a n; [reflexivity|].
  destruct n as [|n]; simpl; [reflexivity|]. now rewrite IH.
Qed.

(** A slice of [range(n)] with bounds in order and inside [0, n]. *)
Lemma py_slice_range (n a b : Z) :
  (0 <= a <= b)%Z -> (b <= n)%Z ->
  py_slice a b (py_range n) = map Z.of_nat (seq (Z.to_nat a) (Z.to_nat (b - a))).
Proof.
  intros Hab Hbn. unfold py_slice, py_range.
  rewrite length_map, length_seq.
  replace (a <? 0)%Z with false by (symmetry; apply Z.ltb_ge; lia).
  replace (b <? 0)%Z with false by (symmetry; apply Z.ltb_ge; lia).
  rewrite !Z.min_l by lia.
  rewrite skipn_map, firstn_map, skipn_seq, firstn_seq.
  f_equal. f_equal. lia.
Qed.

Lemma length_flat_map_const {A B : Type} (f : A -> list B) (n : nat) (l : list A) :
  (forall a, length (f a) = n) -> length (flat_map f l) = length l * n.
Proof.
  intros Hf. induction l as [|a l IH]; simpl; [reflexivity|].
  rewrite length_app, Hf, IH. lia.
Qed.

Lemma length_removelast {A : Type} (l : list A) : length (removelast l) = length l - 1.
Proof.
  rewrite removelast_firstn_len, length_firstn. lia.
Qed.

Lemma nth_error_flat_map_repeat {A : Type} (ny : nat) (xs : list A) :
  forall i j, j < ny ->
    nth_error (flat_map (fun a => repeat a ny) xs) (i * ny + j) = nth_error xs i.
Proof.
  induction xs as [|a xs IH]; intros i j Hj; simpl.
  - destruct (i * ny + j); destruct i; reflexivity.
  - destruct i as [|i]; simpl.
    + rewrite nth_error_app1 by (rewrite repeat_length; exact Hj).
      now apply nth_error_repeat.
    + rewrite nth_error_app2 by (rewrite repeat_length; lia).
      rewrite repeat_length.
      replace (ny + i * ny + j - ny) with (i * ny + j) by lia.
      now apply IH.
Qed.

Lemma nth_error_flat_map_const {A B : Type} (ys : list B) (xs : list A) :
  forall i j, i < length xs -> j < length ys ->
    nth_error (flat_map (fun _ => ys) xs) (i * length ys + j) = nth_error ys j.
Proof.
  induction xs as [|a xs IH]; intros i j Hi Hj; simpl in *; [lia|].
  destruct i as [|i]; simpl.
  - now rewrite nth_error_app1.
  - rewrite nth_error_app2 by lia.
    replace (length ys + i * length ys + j - length ys) with (i * length ys + j) by lia.
    apply IH; lia.
Qed.

(** ** The face loop *)

Lemma strip_faces_run (nx ny j : nat) :
  1 <= ny -> j < nx - 1 ->
  strip_faces (Z.of_nat ny) (vertex_indices (Z.of_nat nx * Z.of_nat ny)) (Z.of_nat j)
  = inr (strip_triangles ny j).
Proof.
  intros Hny Hj.
  assert (Hend : (Z.of_nat j * Z.of_nat ny + 2 * Z.of_nat ny
                  <= Z.of_nat nx * Z.of_nat ny)%Z) by nia.
  unfold strip_faces, vertex_indices.
  rewrite !py_slice_range by nia.
  unfold vstack3_T. rewrite !length_map, !length_seq.
  replace (Z.to_nat (Z.of_nat j * Z.of_nat ny + 2 * Z.of_nat ny
                     - (Z.of_nat j * Z.of_nat ny + Z.of_nat ny + 1))) with (ny - 1) by lia.
  replace (Z.to_nat (Z.of_nat j * Z.of_nat ny + Z.of_nat ny - 1
                     - Z.of_nat j * Z.of_nat ny)) with (ny - 1) by lia.
  replace (Z.to_nat (Z.of_nat j * Z.of_nat ny + Z.of_nat ny
                     - (Z.of_nat j * Z.of_nat ny + 1))) with (ny - 1) by lia.
  replace (Z.to_nat (Z.of_nat j * Z.of_nat ny + 2 * Z.of_nat ny - 1
                     - (Z.of_nat j * Z.of_nat ny + Z.of_nat ny))) with (ny - 1) by lia.
  rewrite Nat.eqb_refl. simpl.
  rewrite !zip3_maps. unfold strip_triangles. f_equal. f_equal.
  - apply map_ext. intros k. unfold upper_triangle, flat_index.
    repeat f_equal; lia.
  - apply map_ext. intros k. unfold lower_triangle, flat_index.
    repeat f_equal; lia.
Qed.

Lemma face_loop_run (ny : Z) (idx : list Z) (strip : nat -> list (Z * Z * Z)) :
  forall (js : list nat) (acc : list (Z * Z * Z)),
    (forall j, In j js -> strip_faces ny idx (Z.of_nat j) = inr (strip j)) ->
    face_loop ny idx (map Z.of_nat js) acc = inr (acc ++ flat_map strip js).
Proof.
  induction js as [|j js IH]; intros acc Hjs; simpl.
  - now rewrite app_nil_r.
  - rewrite (Hjs j) by now left.
    rewrite IH by (intros j' Hj'; apply Hjs; now right).
    now rewrite <- app_assoc.
Qed.

(** For a grid with at least one column the loop never raises, and it builds
    the face list strip by strip. *)
Lemma faces_of_grid (nx ny : nat) :
  1 <= ny ->
  face_loop (Z.of_nat ny) (vertex_indices (Z.of_nat nx * Z.of_nat ny))
            (py_range (Z.of_nat nx - 1)) []
  = inr (grid_faces nx ny).
Proof.
  intros Hny. unfold py_range.
  replace (Z.to_nat (Z.of_nat nx - 1)) with (nx - 1) by lia.
  rewrite face_loop_run with (strip := strip_triangles ny); [reflexivity|].
  intros j Hj. apply in_seq in Hj. apply strip_faces_run; lia.
Qed.

Lemma length_strip_triangles (ny j : nat) : length (strip_triangles ny j) = 2 * (ny - 1).
Proof.
  unfold strip_triangles. rewrite length_app, !length_map, length_seq. lia.
Qed.

Lemma length_grid_faces (nx ny : nat) : length (grid_faces nx ny) = 2 * (nx - 1) * (ny - 1).
Proof.
  unfold grid_faces.
  rewrite length_flat_map_const with (n := 2 * (ny - 1)) by apply length_strip_triangles.
  rewrite length_seq. lia.
Qed.

(** Membership in the face list: a face is the upper or the lower triangle of
    a cell, and a cell is a row below the last and a column before the last. *)
Lemma in_grid_faces (nx ny : nat) (f : Z * Z * Z) :
  In f (grid_faces nx ny) <->
  exists r c, r < nx - 1 /\ c < ny - 1 /\
    (f = upper_triangle (Z.of_nat ny) (flat_index ny r c) \/
     f = lower_triangle (Z.of_nat ny) (flat_index ny r c)).
Proof.
  unfold grid_faces. rewrite in_flat_map. split.
  - intros (r & Hr & Hf). apply in_seq in Hr.
    unfold strip_triangles in Hf. apply in_app_or in Hf.
    destruct Hf as [Hf|Hf]; apply in_map_iff in Hf; destruct Hf as (c & Hc & Hin);
      apply in_seq in Hin; exists r, c; (split; [lia|]); (split; [lia|]); auto.
  - intros (r & c & Hr & Hc & Hf). exists r. split; [apply in_seq; lia|].
    unfold strip_triangles. apply in_or_app.
    destruct Hf as [-> | ->]; [left|right]; apply in_map_iff; exists c;
      (split; [reflexivity | apply in_seq; lia]).
Qed.

Lemma grid_faces_in_range (nx ny : nat) :
  Forall (face_in_range (nx * ny)) (grid_faces nx ny).
Proof.
  apply Forall_forall. intros f Hf. apply in_grid_faces in Hf.
  destruct Hf as (r & c & Hr & Hc & Hf).
  assert (Hlast : r * ny + c + ny + 1 < nx * ny) by nia.
  destruct Hf as [-> | ->]; unfold upper_triangle, lower_triangle, flat_index, face_in_range;
    lia.
Qed.

Lemma NoDup_flat_map {A B : Type} (f : A -> list B) (l : list A) :
  NoDup l ->
  (forall a, In a l -> NoDup (f a)) ->
  (forall a b x, In a l -> In b l -> a <> b -> In x (f a) -> ~ In x (f b)) ->
  NoDup (flat_map f l).
Proof.
  induction l as [|a l IH]; intros Hl Hf Hdisj; simpl; [constructor|].
  inversion Hl as [|? ? Hnotin Hl']; subst.
  apply NoDup_app.
  - apply Hf. now left.
  - apply IH; [assumption | intros; apply Hf; now right |].
    intros a' b x Ha' Hb. apply Hdisj; now right.
  - intros x Hx Hin. apply in_flat_map in Hin. destruct Hin as (b & Hb & Hxb).
    apply (Hdisj a b x); [now left | now right | | assumption | assumption].
    intros ->. contradiction.
Qed.

Lemma in_strip_triangles (ny j : nat) (f : Z * Z * Z) :
  In f (strip_triangles ny j) ->
  exists c, c < ny - 1 /\
    (f = upper_triangle (Z.of_nat ny) (flat_index ny j c) \/
     f = lower_triangle (Z.of_nat ny) (flat_index ny j c)).
Proof.
  unfold strip_triangles. intros Hf. apply in_app_or in Hf.
  destruct Hf as [Hf|Hf]; apply in_map_iff in Hf; destruct Hf as (c & Hc & Hin);
    apply in_seq in Hin; exists c; (split; [lia | auto]).
Qed.

Lemma NoDup_strip_triangles (ny j : nat) : NoDup (strip_triangles ny j).
Proof.
  unfold strip_triangles. apply NoDup_app.
  - apply NoDup_map_NoDup_ForallPairs; [|apply seq_NoDup].
    intros k k' _ _ Heq. unfold upper_triangle, flat_index in Heq.
    injection Heq as H1 _ _. lia.
  - apply NoDup_map_NoDup_ForallPairs; [|apply seq_NoDup].
    intros k k' _ _ Heq. unfold lower_triangle, flat_index in Heq.
    injection Heq as H1 _ _. lia.
  - intros f Hup Hlow.
    apply in_map_iff in Hup. destruct Hup as (k & <- & _).
    apply in_map_iff in Hlow. destruct Hlow as (k' & Heq & _).
    unfold upper_triangle, lower_triangle, flat_index in Heq.
    injection Heq as H1 H2 _. lia.
Qed.

(** No face is emitted twice. *)
Lemma NoDup_grid_faces (nx ny : nat) : NoDup (grid_faces nx ny).
Proof.
  unfold grid_faces. apply NoDup_flat_map.
  - apply seq_NoDup.
  - intros j _. apply NoDup_strip_triangles.
  - intros j j' f _ _ Hne Hj Hj'.
    apply in_strip_triangles in Hj. destruct Hj as (c & Hc & Hf).
    apply in_strip_triangles in Hj'. destruct Hj' as (c' & Hc' & Hf').
    assert (Hfirst : flat_index ny j c = flat_index ny j' c').
    { destruct Hf as [-> | ->]; destruct Hf' as [Hf'|Hf'];
        unfold upper_triangle, lower_triangle in Hf'; injection Hf' as H1 _ _; exact H1. }
    unfold flat_index in Hfirst. apply Hne. nia.
Qed.

(** ** The stages of the mesh builder *)

Section BuilderFacts.

Context {F : Type} {FL : Float F}.

(** The run of [hmap_to_trimesh] on a 2-dimensional array: the skirt edit,
    when asked for, then the assembly on the array the edit left. *)
Lemma hmap_to_trimesh_stages (z : ndarray F) (ax : axes F) (sk : bool) (nx ny : nat) :
  shape z = [nx; ny] ->
  hmap_to_trimesh z ax sk =
  match (if sk then add_skirt_edit (Z.of_nat nx) (Z.of_nat ny) z else (z, inr tt)) with
  | (z1, inl e) => (z1, inl e)
  | (z1, inr _) => (z1, assemble (Z.of_nat nx) (Z.of_nat ny) ax z1)
  end.
Proof.
  intros Hs. unfold hmap_to_trimesh, hmap_to_trimesh_body, bind, read, unpack_shape.
  rewrite Hs. simpl.
  destruct sk; unfold ret.
  - destruct (add_skirt_edit (Z.of_nat nx) (Z.of_nat ny) z) as [z1 [e|u]]; [reflexivity|].
    unfold lift, assemble.
    destruct (coordinate_grids (Z.of_nat nx) (Z.of_nat ny) ax) as [e|[x y]]; [reflexivity|].
    destruct (vstack3_T (flatten x) (flatten y) (flatten z1)) as [e|xyz]; [reflexivity|].
    destruct (face_loop _ _ _ _) as [e|fs]; reflexivity.
  - unfold lift, assemble.
    destruct (coordinate_grids (Z.of_nat nx) (Z.of_nat ny) ax) as [e|[x y]]; [reflexivity|].
    destruct (vstack3_T (flatten x) (flatten y) (flatten z)) as [e|xyz]; [reflexivity|].
    destruct (face_loop _ _ _ _) as [e|fs]; reflexivity.
Qed.

(** An array that is not 2-dimensional is refused before anything is written. *)
Lemma hmap_to_trimesh_not_2d (z : ndarray F) (ax : axes F) (sk : bool) :
  (forall nx ny, shape z <> [nx; ny]) ->
  hmap_to_trimesh z ax sk = (z, inl ValueError).
Proof.
  intros Hs. unfold hmap_to_trimesh, hmap_to_trimesh_body, bind, read, unpack_shape.
  destruct (shape z) as [|nx [|ny [|k s]]]; try reflexivity.
  now destruct (Hs nx ny).
Qed.

Lemma wf_length_2d (z : ndarray F) (nx ny : nat) :
  wf z -> shape z = [nx; ny] -> length (data z) = nx * ny.
Proof.
  intros Hwf Hs. unfold wf in Hwf. rewrite Hs in Hwf. simpl in Hwf. lia.
Qed.

(** *** Reading and writing single samples *)

Lemma get2_mask_assign (a : ndarray F) (nx ny : nat) (p : nat -> nat -> bool) (v : F)
    (i j : nat) :
  shape a = [nx; ny] -> j < ny ->
  get2 (mask_assign ny p v a) i j =
  option_map (fun old => if p i j then v else old) (get2 a i j).
Proof.
  intros Hs Hj. unfold get2, mask_assign. simpl. rewrite Hs.
  rewrite nth_error_mapi_from. simpl.
  now rewrite cell_div, cell_mod.
Qed.

Lemma get2_defined (a : ndarray F) (nx ny i j : nat) :
  wf a -> shape a = [nx; ny] -> i < nx -> j < ny -> exists v, get2 a i j = Some v.
Proof.
  intros Hwf Hs Hi Hj. unfold get2. rewrite Hs.
  destruct (nth_error (data a) (i * ny + j)) as [v|] eqn:E; [now exists v|].
  apply nth_error_None in E. unfold wf in Hwf. rewrite Hs in Hwf. simpl in Hwf.
  pose proof (cell_in_range Hi Hj). lia.
Qed.

Lemma shape_skirted (nx ny : nat) (z0 : F) (z : ndarray F) :
  shape (skirted nx ny z0 z) = shape z.
Proof. reflexivity. Qed.

Lemma length_skirted (nx ny : nat) (z0 : F) (z : ndarray F) :
  length (data (skirted nx ny z0 z)) = length (data z).
Proof.
  unfold skirted, mask_assign. simpl. now rewrite !length_mapi_from.
Qed.

Lemma length_final_array (sk : bool) (nx ny : nat) (z : ndarray F) :
  wf z -> shape z = [nx; ny] -> length (flatten (final_array sk nx ny z)) = nx * ny.
Proof.
  intros Hwf Hs. pose proof (wf_length_2d Hwf Hs) as Hlen.
  unfold final_array, flatten. destruct sk; [|exact Hlen].
  destruct (skirt_floor z); [exact Hlen | now rewrite length_skirted].
Qed.

(** A sample of the skirted array: the floor value on the border, the old
    value inside. *)
Lemma get2_skirted (nx ny : nat) (z0 : F) (z : ndarray F) (i j : nat) :
  shape z = [nx; ny] -> j < ny ->
  get2 (skirted nx ny z0 z) i j =
  option_map (fun old => if on_border nx ny i j then z0 else old) (get2 z i j).
Proof.
  intros Hs Hj. unfold skirted.
  rewrite !(get2_mask_assign _ (nx := nx)) by (assumption || exact Hs).
  destruct (get2 z i j) as [old|]; [|reflexivity]. simpl. f_equal.
  unfold on_border.
  destruct (i =? 0), (i =? nx - 1), (j =? 0), (j =? ny - 1); reflexivity.
Qed.

(** *** The skirt edit *)

Lemma py_index_first (n : nat) : 1 <= n -> py_index n 0 = inr 0.
Proof.
  intros Hn. unfold py_index. simpl.
  replace (0 <? Z.of_nat n)%Z with true by (symmetry; apply Z.ltb_lt; lia).
  reflexivity.
Qed.

Lemma py_index_last (n : nat) : 1 <= n -> py_index n (Z.of_nat n - 1) = inr (n - 1).
Proof.
  intros Hn. unfold py_index.
  replace (Z.of_nat n - 1 <? 0)%Z with false by (symmetry; apply Z.ltb_ge; lia).
  replace (0 <=? Z.of_nat n - 1)%Z with true by (symmetry; apply Z.leb_le; lia).
  replace (Z.of_nat n - 1 <? Z.of_nat n)%Z with true by (symmetry; apply Z.ltb_lt; lia).
  simpl. f_equal. lia.
Qed.

(** The floor value is defined exactly when the array has a sample. *)
Lemma skirt_floor_defined (z : ndarray F) :
  data z <> [] ->
  exists lo hi, amin z = inr lo /\ amax z = inr hi /\
    skirt_floor z = inr (fsub lo (fmul (lit 5 (-2)) (fsub hi lo))).
Proof.
  intros Hne. unfold skirt_floor, ptp, amin, amax, reduce.
  destruct (data z) as [|a l]; [contradiction|].
  eexists. eexists. repeat split.
Qed.

(** On an array with a sample the edit writes the floor value, computed from
    the data as they were, to the border. *)
Lemma add_skirt_edit_run (z : ndarray F) (nx ny : nat) (z0 : F) :
  shape z = [nx; ny] -> 1 <= nx -> 1 <= ny -> skirt_floor z = inr z0 ->
  add_skirt_edit (Z.of_nat nx) (Z.of_nat ny) z = (skirted nx ny z0 z, inr tt).
Proof.
  intros Hs Hnx Hny Hfloor.
  unfold add_skirt_edit, bind, read, write.
  unfold skirt_floor in Hfloor.
  destruct (amin z) as [e|lo]; [destruct (ptp z); discriminate|].
  destruct (ptp z) as [e|span]; [discriminate|].
  injection Hfloor as <-.
  unfold assign_row, assign_col. rewrite Hs.
  rewrite (py_index_first Hnx). simpl. rewrite Hs.
  rewrite (py_index_last Hnx). simpl. rewrite Hs.
  rewrite (py_index_first Hny). simpl. rewrite Hs.
  rewrite (py_index_last Hny). reflexivity.
Qed.

(** On an array without samples the reduction raises and nothing is written. *)
Lemma add_skirt_edit_empty (z : ndarray F) (nx ny : Z) :
  data z = [] -> add_skirt_edit nx ny z = (z, inl ValueError).
Proof.
  intros He. unfold add_skirt_edit, bind, read, amin, reduce. now rewrite He.
Qed.

End BuilderFacts.

(** ** The assembly of vertices and faces *)

Section AssemblyFacts.

Context {F : Type} {FL : Float F}.

Lemma length_set_last (y : list F) (v : F) : y <> [] -> length (set_last y v) = length y.
Proof.
  intros Hy. unfold set_last.
  rewrite length_app, removelast_firstn_len, length_firstn. simpl.
  destruct y; [contradiction | simpl; lia].
Qed.

Lemma length_linspace (start stop : F) (n : nat) : length (linspace start stop n) = n.
Proof.
  unfold linspace.
  set (y0 := map (fun k => of_int (Z.of_nat k)) (seq 0 n)).
  assert (H0 : length y0 = n) by (unfold y0; now rewrite length_map, length_seq).
  set (y1 := if (0 <? Z.of_nat n - 1)%Z then _ else _).
  assert (H1 : length y1 = n).
  { unfold y1. destruct (0 <? Z.of_nat n - 1)%Z; [destruct (feqb _ _)|];
      now rewrite length_map. }
  destruct (1 <? n) eqn:E.
  - rewrite length_set_last; [now rewrite length_map|].
    apply Nat.ltb_lt in E. intros Hnil. apply (f_equal (@length F)) in Hnil.
    rewrite length_map, H1 in Hnil. simpl in Hnil. lia.
  - now rewrite length_map.
Qed.

Lemma length_meshgrid_ij (x y : ndarray F) :
  length (data (fst (meshgrid_ij x y))) = length (data x) * length (data y) /\
  length (data (snd (meshgrid_ij x y))) = length (data x) * length (data y).
Proof.
  unfold meshgrid_ij, flatten. simpl. split.
  - apply length_flat_map_const. intros a. apply repeat_length.
  - now apply length_flat_map_const.
Qed.

Lemma length_grid_columns (nx ny : nat) (ax : axes F) :
  axes_fit nx ny ax ->
  length (fst (grid_columns nx ny ax)) = nx * ny /\
  length (snd (grid_columns nx ny ax)) = nx * ny.
Proof.
  intros Hfit. unfold grid_columns. destruct ax as [|x y].
  - match goal with |- context [meshgrid_ij ?a ?b] =>
      pose proof (length_meshgrid_ij a b) as H; destruct (meshgrid_ij a b) as [gx gy] end.
    simpl in H. rewrite !length_linspace in H. exact H.
  - destruct Hfit as [Hx Hy].
    pose proof (length_meshgrid_ij x y) as H. destruct (meshgrid_ij x y) as [gx gy].
    simpl in H. rewrite Hx, Hy in H. exact H.
Qed.

Lemma coordinate_grids_run (nx ny : nat) (ax : axes F) :
  1 <= nx ->
  exists x y, coordinate_grids (Z.of_nat nx) (Z.of_nat ny) ax = inr (x, y) /\
              grid_columns nx ny ax = (flatten x, flatten y).
Proof.
  intros Hnx. unfold coordinate_grids, grid_columns. destruct ax as [|x y].
  - unfold py_truediv.
    replace (Z.max (Z.of_nat nx) (Z.of_nat ny) =? 0)%Z with false
      by (symmetry; apply Z.eqb_neq; lia).
    rewrite !Nat2Z.id.
    match goal with |- context [meshgrid_ij ?a ?b] => destruct (meshgrid_ij a b) as [gx gy] end.
    now exists gx, gy.
  - destruct (meshgrid_ij x y) as [gx gy]. now exists gx, gy.
Qed.

(** On an array with at least one row and one column, and axes that fit, the
    assembly raises nothing. *)
Lemma assemble_run (nx ny : nat) (ax : axes F) (z1 : ndarray F) :
  1 <= nx -> 1 <= ny -> axes_fit nx ny ax -> length (data z1) = nx * ny ->
  assemble (Z.of_nat nx) (Z.of_nat ny) ax z1 =
  inr {| vertices := zip3 (fst (grid_columns nx ny ax)) (snd (grid_columns nx ny ax))
                          (flatten z1);
         faces := grid_faces nx ny |}.
Proof.
  intros Hnx Hny Hfit Hlen. unfold assemble.
  destruct (coordinate_grids_run ny ax Hnx) as (x & y & -> & Hcols).
  destruct (length_grid_columns nx ny ax Hfit) as [Hx Hy].
  rewrite Hcols in *. simpl in Hx, Hy.
  unfold vstack3_T, flatten in *. rewrite Hx, Hy, Hlen, Nat.eqb_refl. simpl.
  now rewrite (faces_of_grid nx Hny).
Qed.

(** The run of the mesh builder on a well-formed array with at least one row
    and one column: it returns, and this is what it returns. *)
Lemma hmap_to_trimesh_run (z : ndarray F) (ax : axes F) (sk : bool) (nx ny : nat) :
  wf z -> shape z = [nx; ny] -> 1 <= nx -> 1 <= ny -> axes_fit nx ny ax ->
  hmap_to_trimesh z ax sk = (final_array sk nx ny z, inr (built_mesh sk nx ny ax z)).
Proof.
  intros Hwf Hs Hnx Hny Hfit.
  pose proof (@wf_length_2d F z nx ny Hwf Hs) as Hlen.
  rewrite (hmap_to_trimesh_stages z ax sk Hs).
  unfold built_mesh, final_array. destruct sk.
  - assert (Hne : data z <> []).
    { intros He. rewrite He in Hlen. simpl in Hlen. nia. }
    destruct (skirt_floor_defined z Hne) as (lo & hi & _ & _ & Hfloor).
    rewrite Hfloor.
    rewrite (@add_skirt_edit_run F FL z nx ny _ Hs Hnx Hny Hfloor).
    rewrite assemble_run; [reflexivity | assumption..|].
    now rewrite length_skirted.
  - now rewrite assemble_run.
Qed.

End AssemblyFacts.

Section VertexColumns.

Context {F : Type} {FL : Float F}.

Lemma nth_error_set_last (y : list F) (v : F) (k : nat) :
  k < length y ->
  nth_error (set_last y v) k = if k =? length y - 1 then Some v else nth_error y k.
Proof.
  intros Hk. unfold set_last. destruct (Nat.eqb_spec k (length y - 1)) as [->|Hne].
  - rewrite nth_error_app2 by (rewrite length_removelast; lia).
    now rewrite length_removelast, Nat.sub_diag.
  - rewrite nth_error_app1 by (rewrite length_removelast; lia).
    rewrite removelast_firstn_len, nth_error_firstn.
    replace (k <? Nat.pred (length y)) with true by (symmetry; apply Nat.ltb_lt; lia).
    reflexivity.
Qed.

(** The coordinate columns of the mesh that was built are the flattened
    grids. *)
Lemma built_mesh_columns (sk : bool) (nx ny : nat) (ax : axes F) (z : ndarray F) :
  wf z -> shape z = [nx; ny] -> axes_fit nx ny ax ->
  map (fun v => fst (fst v)) (vertices (built_mesh sk nx ny ax z))
    = fst (grid_columns nx ny ax) /\
  map (fun v => snd (fst v)) (vertices (built_mesh sk nx ny ax z))
    = snd (grid_columns nx ny ax).
Proof.
  intros Hwf Hs Hfit.
  pose proof (@wf_length_2d F z nx ny Hwf Hs) as Hlen.
  destruct (length_grid_columns nx ny ax Hfit) as [Hx Hy].
  pose proof (@length_final_array F FL sk nx ny z Hwf Hs) as Hz.
  unfold built_mesh. simpl. split.
  - apply map_fst_zip3; lia.
  - apply map_snd_zip3; lia.
Qed.

(** Without axes, sample [(i, j)] gets the [i]-th point of the first lattice
    and the [j]-th point of the second. *)
Lemma synthesized_columns_nth (nx ny i j : nat) :
  i < nx -> j < ny ->
  let m := Z.max (Z.of_nat nx) (Z.of_nat ny) in
  nth_error (fst (grid_columns nx ny (@NoAxes F))) (i * ny + j)
    = nth_error (linspace (of_int 0) (fdiv (of_int (Z.of_nat nx)) (of_int m)) nx) i /\
  nth_error (snd (grid_columns nx ny (@NoAxes F))) (i * ny + j)
    = nth_error (linspace (of_int 0) (fdiv (of_int (Z.of_nat ny)) (of_int m)) ny) j.
Proof.
  intros Hi Hj m. unfold grid_columns, meshgrid_ij, flatten. simpl. fold m.
  rewrite !length_linspace. split.
  - now apply nth_error_flat_map_repeat.
  - set (xs := linspace _ _ nx). set (ys := linspace _ _ ny).
    assert (Hlx : length xs = nx) by apply length_linspace.
    assert (Hly : length ys = ny) by apply length_linspace.
    pose proof (@nth_error_flat_map_const F F ys xs i j) as H.
    rewrite Hlx, Hly in H. now apply H.
Qed.

(** Whatever the arithmetic, the last sample of [linspace] is [stop] itself:
    it is assigned, not computed. *)
Lemma linspace_last (start stop : F) (n : nat) :
  2 <= n -> nth_error (linspace start stop n) (n - 1) = Some stop.
Proof.
  intros Hn. pose proof (length_linspace start stop n) as Hlen.
  unfold linspace in *.
  replace (1 <? n) with true in * by (symmetry; apply Nat.ltb_lt; lia).
  match goal with |- context [set_last ?y _] => set (yy := y) in * end.
  destruct yy as [|a yy'] eqn:Hy.
  - simpl in Hlen. lia.
  - rewrite length_set_last in Hlen by discriminate.
    rewrite nth_error_set_last by lia.
    rewrite Hlen, Nat.eqb_refl. reflexivity.
Qed.

(** So the last row of X holds [nx / max(nx, ny)] and the last column of Y
    holds [ny / max(nx, ny)], in every model of the floats. *)
Lemma synthesized_far_edges (nx ny i j : nat) :
  2 <= nx -> 2 <= ny -> i < nx -> j < ny ->
  let m := Z.max (Z.of_nat nx) (Z.of_nat ny) in
  nth_error (fst (grid_columns nx ny (@NoAxes F))) ((nx - 1) * ny + j)
    = Some (fdiv (of_int (Z.of_nat nx)) (of_int m)) /\
  nth_error (snd (grid_columns nx ny (@NoAxes F))) (i * ny + (ny - 1))
    = Some (fdiv (of_int (Z.of_nat ny)) (of_int m)).
Proof.
  intros Hnx Hny Hi Hj m. split.
  - destruct (@synthesized_columns_nth nx ny (nx - 1) j) as [Hx _]; [lia | exact Hj |].
    rewrite Hx. now apply linspace_last.
  - destruct (@synthesized_columns_nth nx ny i (ny - 1)) as [_ Hy]; [exact Hi | lia |].
    rewrite Hy. now apply linspace_last.
Qed.

End VertexColumns.

(** ** The synthesized lattice, rounding ignored *)

Lemma linspace_real_nth (s : R) (n k : nat) :
  2 <= n -> k < n ->
  nth_error (linspace (F := R) (of_int 0) s n) k = Some (lattice_point s n k).
Proof.
  intros Hn Hk. unfold linspace, lattice_point.
  replace (0 <? Z.of_nat n - 1)%Z with true by (symmetry; apply Z.ltb_lt; lia).
  replace (1 <? n) with true by (symmetry; apply Nat.ltb_lt; lia).
  assert (Hd : INR (n - 1) <> 0%R) by (apply not_0_INR; lia).
  assert (Hdiv : IZR (Z.of_nat n - 1) = INR (n - 1)).
  { rewrite INR_IZR_INZ. f_equal. lia. }
  match goal with |- context [set_last ?y _] => set (yy := y) end.
  assert (Hlen : length yy = n).
  { unfold yy. rewrite length_map. destruct (feqb _ _); now rewrite length_map, length_map, length_seq. }
  rewrite nth_error_set_last by lia. rewrite Hlen.
  destruct (Nat.eqb_spec k (n - 1)) as [->|Hne].
  - f_equal. field. exact Hd.
  - unfold yy. rewrite nth_error_map.
    destruct (feqb _ _); rewrite !nth_error_map, nth_error_seq;
      replace (k <? n) with true by (symmetry; apply Nat.ltb_lt; lia);
      cbn [option_map Nat.add of_int fadd fsub fmul fdiv Float_real];
      rewrite Hdiv, <- INR_IZR_INZ; f_equal; field; exact Hd.
Qed.

Lemma lattice_point_bounds (s : R) (n k : nat) :
  2 <= n -> k < n -> (0 <= s)%R -> (0 <= lattice_point s n k <= s)%R.
Proof.
  intros Hn Hk Hs. unfold lattice_point.
  assert (Hd : (0 < INR (n - 1))%R) by (apply lt_0_INR; lia).
  assert (Hk0 : (0 <= INR k)%R) by apply pos_INR.
  assert (Hkd : (INR k <= INR (n - 1))%R) by (apply le_INR; lia).
  assert (Hq : (INR k * s / INR (n - 1) * INR (n - 1) = INR k * s)%R) by (field; lra).
  split; nra.
Qed.

Lemma lattice_point_first (s : R) (n : nat) : 2 <= n -> lattice_point s n 0 = 0%R.
Proof.
  intros Hn. unfold lattice_point. simpl. field. apply not_0_INR. lia.
Qed.

Lemma lattice_point_last (s : R) (n : nat) : 2 <= n -> lattice_point s n (n - 1) = s.
Proof.
  intros Hn. unfold lattice_point. field. apply not_0_INR. lia.
Qed.

Lemma fold_left_Rmin_spec (l : list R) :
  forall a,
    (fold_left Rmin l a <= a)%R /\
    (forall v, In v l -> (fold_left Rmin l a <= v)%R) /\
    (fold_left Rmin l a = a \/ In (fold_left Rmin l a) l).
Proof.
  induction l as [|x l IH]; intros a; simpl.
  - split; [lra|]. split; [contradiction | now left].
  - destruct (IH (Rmin a x)) as (Hle & Hall & Hin).
    pose proof (Rmin_l a x). pose proof (Rmin_r a x).
    split; [lra|]. split.
    + intros v [<-|Hv]; [lra | now apply Hall].
    + destruct Hin as [Heq|Hin]; [|now right; right].
      rewrite Heq. unfold Rmin. destruct (Rle_dec a x); [now left | now right; left].
Qed.

Lemma fold_left_Rmax_spec (l : list R) :
  forall a,
    (a <= fold_left Rmax l a)%R /\
    (forall v, In v l -> (v <= fold_left Rmax l a)%R) /\
    (fold_left Rmax l a = a \/ In (fold_left Rmax l a) l).
Proof.
  induction l as [|x l IH]; intros a; simpl.
  - split; [lra|]. split; [contradiction | now left].
  - destruct (IH (Rmax a x)) as (Hle & Hall & Hin).
    pose proof (Rmax_l a x). pose proof (Rmax_r a x).
    split; [lra|]. split.
    + intros v [<-|Hv]; [lra | now apply Hall].
    + destruct Hin as [Heq|Hin]; [|now right; right].
      rewrite Heq. unfold Rmax. destruct (Rle_dec a x); [now right; left | now left].
Qed.

(** The minimum of a list that contains a lower bound of itself. *)
Lemma reduce_Rmin_attained (l : list R) (lo : R) :
  In lo l -> (forall v, In v l -> (lo <= v)%R) -> reduce Rmin l = inr lo.
Proof.
  intros Hin Hlow. destruct l as [|a l]; [contradiction|]. simpl. f_equal.
  destruct (fold_left_Rmin_spec l a) as (Hle & Hall & Hmem).
  apply Rle_antisym.
  - destruct Hin as [<-|Hin]; [exact Hle | now apply Hall].
  - apply Hlow. destruct Hmem as [->|Hmem]; [now left | now right].
Qed.

Lemma reduce_Rmax_attained (l : list R) (hi : R) :
  In hi l -> (forall v, In v l -> (v <= hi)%R) -> reduce Rmax l = inr hi.
Proof.
  intros Hin Hup. destruct l as [|a l]; [contradiction|]. simpl. f_equal.
  destruct (fold_left_Rmax_spec l a) as (Hle & Hall & Hmem).
  apply Rle_antisym.
  - apply Hup. destruct Hmem as [->|Hmem]; [now left | now right].
  - destruct Hin as [<-|Hin]; [exact Hle | now apply Hall].
Qed.

(** A column of [nx * ny] entries whose entry [(i, j)] is a lattice point of
    index [pick i j] spans the lattice, from 0 to [s]. *)
Lemma column_span (col : list R) (s : R) (nx ny n : nat) (pick : nat -> nat -> nat) :
  length col = nx * ny -> 1 <= nx -> 1 <= ny -> 2 <= n -> (0 <= s)%R ->
  (forall i j, i < nx -> j < ny -> pick i j < n) ->
  (forall i j, i < nx -> j < ny ->
     nth_error col (i * ny + j) = Some (lattice_point s n (pick i j))) ->
  (exists i j, i < nx /\ j < ny /\ pick i j = 0) ->
  (exists i j, i < nx /\ j < ny /\ pick i j = n - 1) ->
  reduce Rmin col = inr 0%R /\ reduce Rmax col = inr s.
Proof.
  intros Hlen Hnx Hny Hn Hs Hpick Hnth (i0 & j0 & Hi0 & Hj0 & H0) (i1 & j1 & Hi1 & Hj1 & H1).
  assert (Hbounds : forall v, In v col -> (0 <= v <= s)%R).
  { intros v Hv. apply In_nth_error in Hv. destruct Hv as [k Hk].
    assert (Hklt : k < nx * ny).
    { rewrite <- Hlen. apply nth_error_Some. rewrite Hk. discriminate. }
    assert (Hi : k / ny < nx) by (apply Nat.Div0.div_lt_upper_bound; lia).
    assert (Hj : k mod ny < ny) by (apply Nat.mod_upper_bound; lia).
    pose proof (Nat.div_mod_eq k ny) as Hsplit.
    replace k with (k / ny * ny + k mod ny) in Hk by lia.
    rewrite (Hnth _ _ Hi Hj) in Hk. injection Hk as <-.
    apply lattice_point_bounds; auto. }
  split.
  - apply reduce_Rmin_attained; [|intros v Hv; now apply Hbounds].
    apply nth_error_In with (n := i0 * ny + j0).
    rewrite (Hnth _ _ Hi0 Hj0), H0. now rewrite lattice_point_first.
  - apply reduce_Rmax_attained; [|intros v Hv; now apply Hbounds].
    apply nth_error_In with (n := i1 * ny + j1).
    rewrite (Hnth _ _ Hi1 Hj1), H1. now rewrite lattice_point_last.
Qed.

(** C7.  For every [nx] by [ny] height array ([nx, ny >= 2]) and no axes, the
    vertex coordinates form uniform lattices: sample [(i, j)] has
    [x = i * sx / (nx - 1)] and [y = j * sy / (ny - 1)] with
    [sx = nx / max(nx, ny)] and [sy = ny / max(nx, ny)]; X spans [0, sx], Y
    spans [0, sy], and the ratio of the spans is [nx / ny].  Stated in the
    real-number model, that is, up to the rounding of the float operations. *)
Theorem synthesized_lattice_keeps_aspect (z : ndarray R) (sk : bool) (nx ny : nat) :
  wf z -> shape z = [nx; ny] -> 2 <= nx -> 2 <= ny ->
  exists m,
    snd (hmap_to_trimesh z NoAxes sk) = inr m /\
    let sx := (INR nx / INR (Nat.max nx ny))%R in
    let sy := (INR ny / INR (Nat.max nx ny))%R in
    let xs := map (fun v => fst (fst v)) (vertices m) in
    let ys := map (fun v => snd (fst v)) (vertices m) in
    (forall i j, i < nx -> j < ny ->
       nth_error xs (i * ny + j) = Some (lattice_point sx nx i) /\
       nth_error ys (i * ny + j) = Some (lattice_point sy ny j)) /\
    exists xmin xmax ymin ymax,
      reduce Rmin xs = inr xmin /\ reduce Rmax xs = inr xmax /\
      reduce Rmin ys = inr ymin /\ reduce Rmax ys = inr ymax /\
      xmin = 0%R /\ xmax = sx /\ ymin = 0%R /\ ymax = sy /\
      ((xmax - xmin) / (ymax - ymin) = INR nx / INR ny)%R.
Proof.
  intros Hwf Hs Hnx Hny.
  exists (built_mesh sk nx ny NoAxes z).
  rewrite (@hmap_to_trimesh_run R _ z NoAxes sk nx ny) by (assumption || lia || exact I).
  split; [reflexivity|].
  destruct (@built_mesh_columns R _ sk nx ny NoAxes z Hwf Hs I) as [Hxs Hys].
  destruct (@length_grid_columns R _ nx ny NoAxes I) as [Hlx Hly].
  cbv zeta. rewrite Hxs, Hys.
  assert (Hmax : IZR (Z.max (Z.of_nat nx) (Z.of_nat ny)) = INR (Nat.max nx ny)).
  { now rewrite INR_IZR_INZ, Nat2Z.inj_max. }
  assert (Hm : (0 < INR (Nat.max nx ny))%R) by (apply lt_0_INR; lia).
  assert (Hnx0 : (0 < INR nx)%R) by (apply lt_0_INR; lia).
  assert (Hny0 : (0 < INR ny)%R) by (apply lt_0_INR; lia).
  assert (Hsx : (0 <= INR nx / INR (Nat.max nx ny))%R).
  { apply Rlt_le, Rdiv_lt_0_compat; assumption. }
  assert (Hsy : (0 <= INR ny / INR (Nat.max nx ny))%R).
  { apply Rlt_le, Rdiv_lt_0_compat; assumption. }
  assert (Hnth : forall i j, i < nx -> j < ny ->
            nth_error (fst (grid_columns nx ny (@NoAxes R))) (i * ny + j)
              = Some (lattice_point (INR nx / INR (Nat.max nx ny)) nx i) /\
            nth_error (snd (grid_columns nx ny (@NoAxes R))) (i * ny + j)
              = Some (lattice_point (INR ny / INR (Nat.max nx ny)) ny j)).
  { intros i j Hi Hj.
    destruct (@synthesized_columns_nth R _ nx ny i j Hi Hj) as [Hx Hy].
    rewrite Hx, Hy.
    cbn [of_int fdiv Float_real]. rewrite Hmax, <- !INR_IZR_INZ.
    split; apply linspace_real_nth; assumption. }
  split; [exact Hnth|].
  destruct (@column_span (fst (grid_columns nx ny (@NoAxes R)))
              (INR nx / INR (Nat.max nx ny)) nx ny nx (fun i _ => i))
    as [Hxmin Hxmax]; try assumption; try lia.
  { intros i j Hi Hj. now apply Hnth. }
  { exists 0, 0. repeat split; lia. }
  { exists (nx - 1), 0. repeat split; lia. }
  destruct (@column_span (snd (grid_columns nx ny (@NoAxes R)))
              (INR ny / INR (Nat.max nx ny)) nx ny ny (fun _ j => j))
    as [Hymin Hymax]; try assumption; try lia.
  { intros i j Hi Hj. now apply Hnth. }
  { exists 0, 0. repeat split; lia. }
  { exists 0, (ny - 1). repeat split; lia. }
  exists 0%R, (INR nx / INR (Nat.max nx ny))%R, 0%R, (INR ny / INR (Nat.max nx ny))%R.
  repeat split; try assumption.
  field. split; lra.
Qed.

Lemma synthesized_lattice_keeps_aspect_witness :
  exists m,
    snd (hmap_to_trimesh RealSamples.flat_2x3 NoAxes false) = inr m /\
    let sx := (INR 2 / INR (Nat.max 2 3))%R in
    let sy := (INR 3 / INR (Nat.max 2 3))%R in
    let xs := map (fun v => fst (fst v)) (vertices m) in
    let ys := map (fun v => snd (fst v)) (vertices m) in
    (forall i j, i < 2 -> j < 3 ->
       nth_error xs (i * 3 + j) = Some (lattice_point sx 2 i) /\
       nth_error ys (i * 3 + j) = Some (lattice_point sy 3 j)) /\
    exists xmin xmax ymin ymax,
      reduce Rmin xs = inr xmin /\ reduce Rmax xs = inr xmax /\
      reduce Rmin ys = inr ymin /\ reduce Rmax ys = inr ymax /\
      xmin = 0%R /\ xmax = sx /\ ymin = 0%R /\ ymax = sy /\
      ((xmax - xmin) / (ymax - ymin) = INR 2 / INR 3)%R.
Proof.
  apply (@synthesized_lattice_keeps_aspect RealSamples.flat_2x3 false 2 3);
    [reflexivity | reflexivity | lia | lia].
Defined.

(** ** The mesh builder: counts, faces, skirt, frame *)

Section BuilderClaims.

Context {F : Type} {FL : Float F}.

Lemma vstack3_T_heights (a b c : list F) (rows : list (F * F * F)) :
  vstack3_T a b c = inr rows -> map (fun v => snd v) rows = c.
Proof.
  unfold vstack3_T.
  destruct ((length a =? length b) && (length b =? length c)) eqn:E; [|discriminate].
  apply andb_prop in E. destruct E as [E1 E2].
  apply Nat.eqb_eq in E1, E2.
  intros Hr. injection Hr as <-. apply map_trd_zip3; lia.
Qed.

Lemma length_built_vertices (sk : bool) (nx ny : nat) (ax : axes F) (z : ndarray F) :
  wf z -> shape z = [nx; ny] -> axes_fit nx ny ax ->
  length (vertices (built_mesh sk nx ny ax z)) = nx * ny.
Proof.
  intros Hwf Hs Hfit.
  pose proof (@wf_length_2d F z nx ny Hwf Hs) as Hlen.
  destruct (length_grid_columns nx ny ax Hfit) as [Hx Hy].
  pose proof (@length_final_array F FL sk nx ny z Hwf Hs) as Hz.
  unfold built_mesh. simpl. rewrite length_zip3; lia.
Qed.

(** C1.  For every height array with [nx, ny >= 2] (and no axes, or axes of
    [nx] and [ny] elements) [hmap_to_trimesh] returns a mesh with exactly
    [nx * ny] vertices and exactly [2 * (nx - 1) * (ny - 1)] faces, and every
    index in the face list lies in [0, nx * ny). *)
Theorem hmap_to_trimesh_counts (z : ndarray F) (ax : axes F) (sk : bool) (nx ny : nat) :
  wf z -> shape z = [nx; ny] -> 2 <= nx -> 2 <= ny -> axes_fit nx ny ax ->
  exists m,
    snd (hmap_to_trimesh z ax sk) = inr m /\
    length (vertices m) = nx * ny /\
    length (faces m) = 2 * (nx - 1) * (ny - 1) /\
    Forall (face_in_range (nx * ny)) (faces m).
Proof.
  intros Hwf Hs Hnx Hny Hfit.
  exists (built_mesh sk nx ny ax z).
  rewrite (@hmap_to_trimesh_run F FL z ax sk nx ny) by (assumption || lia).
  split; [reflexivity|]. split; [|split].
  - now apply length_built_vertices.
  - apply length_grid_faces.
  - apply grid_faces_in_range.
Qed.

(** C2.  For every grid cell, with [i] the flattened index of its first
    corner and [ny] the second dimension, the face list holds the two
    triangles [(i, i + ny + 1, i + 1)] and [(i, i + ny, i + ny + 1)], in that
    orientation, each once, and it holds nothing else. *)
Theorem hmap_to_trimesh_cell_triangles (z : ndarray F) (ax : axes F) (sk : bool)
    (nx ny : nat) :
  wf z -> shape z = [nx; ny] -> 1 <= nx -> 1 <= ny -> axes_fit nx ny ax ->
  exists m,
    snd (hmap_to_trimesh z ax sk) = inr m /\
    NoDup (faces m) /\
    forall f : Z * Z * Z,
      In f (faces m) <->
      exists r c, r < nx - 1 /\ c < ny - 1 /\
        let i := flat_index ny r c in
        (f = (i, i + Z.of_nat ny + 1, i + 1)%Z \/
         f = (i, i + Z.of_nat ny, i + Z.of_nat ny + 1)%Z).
Proof.
  intros Hwf Hs Hnx Hny Hfit.
  exists (built_mesh sk nx ny ax z).
  rewrite (@hmap_to_trimesh_run F FL z ax sk nx ny) by assumption.
  split; [reflexivity|]. split.
  - apply NoDup_grid_faces.
  - intros f. apply in_grid_faces.
Qed.

(** C3.  With [add_skirt] true the call leaves the height array with the
    floor value [min(z) - 0.05 * (max(z) - min(z))], computed from the data as
    they were passed, in every sample of the first and last row and column,
    and with the passed value in every other sample; this holds whatever the
    call then returns or raises, and the heights of a returned mesh are the
    samples of the edited array. *)
Theorem skirt_overwrites_border (z : ndarray F) (ax : axes F) (nx ny : nat) :
  wf z -> shape z = [nx; ny] ->
  shape (fst (hmap_to_trimesh z ax true)) = shape z /\
  (forall i j, i < nx -> j < ny ->
     exists lo hi old,
       amin z = inr lo /\ amax z = inr hi /\ get2 z i j = Some old /\
       get2 (fst (hmap_to_trimesh z ax true)) i j =
       Some (if on_border nx ny i j
             then fsub lo (fmul (lit 5 (-2)) (fsub hi lo))
             else old)) /\
  (forall m, snd (hmap_to_trimesh z ax true) = inr m ->
     map (fun v => snd v) (vertices m) = flatten (fst (hmap_to_trimesh z ax true))).
Proof.
  intros Hwf Hs.
  pose proof (@wf_length_2d F z nx ny Hwf Hs) as Hlen.
  rewrite (hmap_to_trimesh_stages z ax true Hs).
  destruct (data z) as [|a l] eqn:Hd.
  - rewrite add_skirt_edit_empty by exact Hd. simpl.
    split; [reflexivity|]. split; [|discriminate].
    intros i j Hi Hj. simpl in Hlen. nia.
  - assert (Hne : data z <> []) by (rewrite Hd; discriminate).
    assert (Hnx : 1 <= nx) by (simpl in Hlen; nia).
    assert (Hny : 1 <= ny) by (simpl in Hlen; nia).
    destruct (skirt_floor_defined z Hne) as (lo & hi & Hlo & Hhi & Hfloor).
    rewrite (@add_skirt_edit_run F FL z nx ny _ Hs Hnx Hny Hfloor). simpl.
    split; [reflexivity|]. split.
    + intros i j Hi Hj.
      destruct (@get2_defined F z nx ny i j Hwf Hs Hi Hj) as [old Hold].
      exists lo, hi, old. repeat split; try assumption.
      rewrite (@get2_skirted F nx ny _ z i j Hs Hj), Hold. reflexivity.
    + intros m Hm. unfold assemble in Hm.
      destruct (coordinate_grids _ _ _) as [e|[x y]]; [discriminate|].
      destruct (vstack3_T _ _ _) as [e|xyz] eqn:Hv; [discriminate|].
      destruct (face_loop _ _ _ _) as [e|fs]; [discriminate|].
      injection Hm as <-. simpl. now apply vstack3_T_heights in Hv.
Qed.

(** C4, as the code has it.  A height array with at least one sample and
    fewer than two rows or fewer than two columns is not refused: the call
    returns, with [nx * ny] vertices and an empty face list for the mesh
    constructor. *)
Theorem undersized_grid_builds_faceless_mesh (z : ndarray F) (sk : bool) (nx ny : nat) :
  wf z -> shape z = [nx; ny] -> 1 <= nx -> 1 <= ny -> nx < 2 \/ ny < 2 ->
  exists m,
    snd (hmap_to_trimesh z NoAxes sk) = inr m /\
    length (vertices m) = nx * ny /\
    faces m = [].
Proof.
  intros Hwf Hs Hnx Hny Hsmall.
  exists (built_mesh sk nx ny NoAxes z).
  rewrite (@hmap_to_trimesh_run F FL z NoAxes sk nx ny) by (assumption || exact I).
  split; [reflexivity|]. split.
  - now apply length_built_vertices.
  - apply length_zero_iff_nil. simpl. rewrite length_grid_faces. nia.
Qed.

(** Full coordinate grids of the height array's shape are flattened by
    [np.meshgrid] and expanded to [(nx * ny)] squared entries each, which no
    longer stack with the [nx * ny] heights. *)
Lemma full_grids_do_not_stack (z x y : ndarray F) (nx ny : nat) :
  wf z -> wf x -> wf y ->
  shape z = [nx; ny] -> shape x = [nx; ny] -> shape y = [nx; ny] -> 2 <= nx * ny ->
  hmap_to_trimesh z (Axes x y) false = (z, inl ValueError).
Proof.
  intros Hz Hx Hy Hsz Hsx Hsy Hbig.
  unfold wf in *. rewrite Hsz in Hz. rewrite Hsx in Hx. rewrite Hsy in Hy. simpl in *.
  rewrite (hmap_to_trimesh_stages z (Axes x y) false Hsz).
  unfold assemble, coordinate_grids.
  pose proof (length_meshgrid_ij x y) as [Hgx Hgy].
  destruct (meshgrid_ij x y) as [gx gy]. simpl in Hgx, Hgy.
  unfold vstack3_T, flatten.
  replace (length (data gy) =? length (data z)) with false;
    [now rewrite andb_false_r|].
  symmetry. apply Nat.eqb_neq. nia.
Qed.

(** C10.  With [add_skirt] false the call leaves the height array as it was
    passed, whatever it returns or raises: every sample reads the same before
    and after. *)
Theorem no_skirt_leaves_grid (z : ndarray F) (ax : axes F) :
  fst (hmap_to_trimesh z ax false) = z /\
  forall i j, get2 (fst (hmap_to_trimesh z ax false)) i j = get2 z i j.
Proof.
  assert (H : fst (hmap_to_trimesh z ax false) = z).
  { destruct (shape z) as [|nx [|ny [|k s]]] eqn:Hs;
      try (rewrite hmap_to_trimesh_not_2d; [reflexivity | intros ? ?; congruence]).
    now rewrite (hmap_to_trimesh_stages z ax false Hs). }
  split; [exact H | intros i j; now rewrite H].
Qed.

End BuilderClaims.

(** ** Runs of the mesh builder in binary64 *)

Lemma hmap_to_trimesh_counts_witness :
  exists m,
    snd (hmap_to_trimesh Samples.grid_2x3 NoAxes true) = inr m /\
    length (vertices m) = 2 * 3 /\
    length (faces m) = 2 * (2 - 1) * (3 - 1) /\
    Forall (face_in_range (2 * 3)) (faces m).
Proof.
  apply (@hmap_to_trimesh_counts float _ Samples.grid_2x3 NoAxes true 2 3);
    [reflexivity | reflexivity | lia | lia | exact I].
Defined.

Lemma hmap_to_trimesh_cell_triangles_witness :
  exists m,
    snd (hmap_to_trimesh Samples.grid_3x3 NoAxes true) = inr m /\
    NoDup (faces m) /\
    forall f : Z * Z * Z,
      In f (faces m) <->
      exists r c, r < 3 - 1 /\ c < 3 - 1 /\
        let i := flat_index 3 r c in
        (f = (i, i + Z.of_nat 3 + 1, i + 1)%Z \/
         f = (i, i + Z.of_nat 3, i + Z.of_nat 3 + 1)%Z).
Proof.
  apply (@hmap_to_trimesh_cell_triangles float _ Samples.grid_3x3 NoAxes true 3 3);
    [reflexivity | reflexivity | lia | lia | exact I].
Defined.

(** The face list of the 3 by 3 grid, as the loop emits it. *)
Example faces_3x3 :
  option_map (@faces float)
    (match snd (hmap_to_trimesh Samples.grid_3x3 NoAxes true) with
     | inr m => Some m
     | inl _ => None
     end)
  = Some [(0, 4, 1); (1, 5, 2); (0, 3, 4); (1, 4, 5);
          (3, 7, 4); (4, 8, 5); (3, 6, 7); (4, 7, 8)]%Z.
Proof. vm_compute. reflexivity. Qed.

Lemma skirt_overwrites_border_witness :
  shape (fst (hmap_to_trimesh Samples.grid_3x3 NoAxes true)) = shape Samples.grid_3x3 /\
  (forall i j, i < 3 -> j < 3 ->
     exists lo hi old,
       amin Samples.grid_3x3 = inr lo /\ amax Samples.grid_3x3 = inr hi /\
       get2 Samples.grid_3x3 i j = Some old /\
       get2 (fst (hmap_to_trimesh Samples.grid_3x3 NoAxes true)) i j =
       Some (if on_border 3 3 i j
             then fsub lo (fmul (lit 5 (-2)) (fsub hi lo))
             else old)) /\
  (forall m, snd (hmap_to_trimesh Samples.grid_3x3 NoAxes true) = inr m ->
     map (fun v => snd v) (vertices m)
     = flatten (fst (hmap_to_trimesh Samples.grid_3x3 NoAxes true))).
Proof.
  apply (@skirt_overwrites_border float _ Samples.grid_3x3 NoAxes 3 3);
    reflexivity.
Defined.

(** The 3 by 3 array after the call: the floor value is [1 - 0.05 * 8], the
    float nearest to 0.6, and the one interior sample keeps its 5. *)
Example skirt_3x3 :
  data (fst (hmap_to_trimesh Samples.grid_3x3 NoAxes true))
  = map (fun inside : bool => if inside then 5%float else 0x1.3333333333333p-1%float)
        [false; false; false; false; true; false; false; false; false].
Proof. vm_compute. reflexivity. Qed.

(** C4, refuted as stated: the 1 by 5 array is not refused with
    [InvalidShapeError]; the call returns. *)
Lemma grid_1x5_not_refused :
  ~ (raises InvalidShapeError (snd (hmap_to_trimesh Samples.grid_1x5 NoAxes true)) /\
     ~ returns (snd (hmap_to_trimesh Samples.grid_1x5 NoAxes true))).
Proof.
  intros [Hraise _]. vm_compute in Hraise. discriminate Hraise.
Qed.

Lemma undersized_grid_builds_faceless_mesh_witness :
  exists m,
    snd (hmap_to_trimesh Samples.grid_1x5 NoAxes true) = inr m /\
    length (vertices m) = 1 * 5 /\
    faces m = [].
Proof.
  apply (@undersized_grid_builds_faceless_mesh float _ Samples.grid_1x5 true 1 5);
    [reflexivity | reflexivity | lia | lia | left; lia].
Defined.

(** C8, at a failing input: the flat 2 by 2 array with its full coordinate
    grids, as the docstring allows them ("as a meshgrid").  The grids are
    not used as they are: the call raises [ValueError] and returns no mesh. *)
Theorem full_grids_raise_ValueError :
  hmap_to_trimesh Samples.flat_2x2 (Axes Samples.full_x_2x2 Samples.full_y_2x2) false
  = (Samples.flat_2x2, inl ValueError).
Proof. vm_compute. reflexivity. Qed.

(** The lattice of the 2 by 3 array as binary64 computes it: X takes the
    values 0 and 2/3, Y the values 0, 1/2 and 1. *)
Example lattice_2x3 :
  option_map (fun m => map (fun v => fst v) (@vertices float m))
    (match snd (hmap_to_trimesh Samples.grid_2x3 NoAxes false) with
     | inr m => Some m
     | inl _ => None
     end)
  = Some [(0, 0); (0, 0.5); (0, 1);
          (PrimFloat.div 2 3, 0); (PrimFloat.div 2 3, 0.5); (PrimFloat.div 2 3, 1)]%float.
Proof. vm_compute. reflexivity. Qed.

(** ** The scene composer *)

Section ComposerClaims.

Context {F : Type} {FL : Float F}.

Lemma add_meshes_centroid (ms : list (mesh_object F)) :
  forall (sc : scene F) (c : F * F * F),
    snd (add_meshes ms (sc, c)) = fold_left vadd (map (@centroid F) ms) c.
Proof.
  induction ms as [|m ms IH]; intros sc c; [reflexivity|].
  unfold add_meshes in *. simpl. apply IH.
Qed.

Lemma compose_scene_centroid (ms : list (mesh_object F)) :
  snd (compose_scene ms) = unweighted_mean (map (@centroid F) ms).
Proof.
  unfold compose_scene, unweighted_mean.
  pose proof (add_meshes_centroid ms empty_scene zeros3) as H.
  destruct (add_meshes ms (empty_scene, zeros3)) as [sc c]. simpl in *.
  now rewrite H, length_map.
Qed.

(** C9.  For every non-empty list of meshes the centroid [show] computes is
    the unweighted average of the meshes' own centroids; it depends on
    nothing else of the meshes, so not on their numbers of vertices. *)
Theorem scene_centroid_is_unweighted_mean (ms : list (mesh_object F)) :
  ms <> [] ->
  snd (compose_scene ms) = unweighted_mean (map (@centroid F) ms) /\
  forall ms' : list (mesh_object F),
    map (@centroid F) ms' = map (@centroid F) ms ->
    snd (compose_scene ms') = snd (compose_scene ms).
Proof.
  intros _. split; [apply compose_scene_centroid|].
  intros ms' Hsame. now rewrite !compose_scene_centroid, Hsame.
Qed.

(** C5, as the code has it.  In interactive mode [show] does not refuse an
    empty list of meshes: it prints the keyboard commands when asked to, opens
    the viewer on a scene without mesh nodes, and returns [None]; no run of it
    raises an exception. *)
Theorem show_empty_list_interactive (print_kcmds plot_image : bool) :
  show (Many []) print_kcmds false plot_image =
  (if print_kcmds
   then Call (Print F keyboard_cmds) (fun _ => interactive_session empty_scene)
   else interactive_session empty_scene) /\
  forall e, ~ may_raise e (show (Many []) print_kcmds false plot_image).
Proof.
  split.
  - destruct print_kcmds; reflexivity.
  - intros e. destruct print_kcmds; simpl.
    + intros (_ & _ & H). exact H.
    + intros (_ & H). exact H.
Qed.

(** In offscreen mode the first statement reads the name [os], which
    [tools.py] does not bind: whatever the meshes and the other flags, the
    call raises [NameError] before it makes any call. *)
Lemma show_offscreen_NameError (mesh : mesh_arg F) (print_kcmds plot_image : bool) :
  show mesh print_kcmds true plot_image = Raise (NameError "os").
Proof.
  unfold show. destruct (compose_scene _) as [sc c].
  rewrite andb_false_r. reflexivity.
Qed.

End ComposerClaims.

(** The average in the real-number model: the sum of the points divided by
    their number, coordinate by coordinate. *)
Lemma unweighted_mean_real (cs : list (R * R * R)) :
  let total (f : R * R * R -> R) := fold_right Rplus 0%R (map f cs) in
  let n := INR (length cs) in
  unweighted_mean cs =
  ((total (fun c => fst (fst c)) / n)%R,
   (total (fun c => snd (fst c)) / n)%R,
   (total (fun c => snd c) / n)%R).
Proof.
  assert (Hfold : forall (l : list (R * R * R)) (a b c : R),
             fold_left vadd l (a, b, c) =
             ((a + fold_right Rplus 0 (map (fun c => fst (fst c)) l))%R,
              (b + fold_right Rplus 0 (map (fun c => snd (fst c)) l))%R,
              (c + fold_right Rplus 0 (map (fun c => snd c) l))%R)).
  { induction l as [|[[x y] z] l IH]; intros a b c; simpl.
    - now rewrite !Rplus_0_r.
    - rewrite IH. simpl. f_equal; [f_equal|]; lra. }
  simpl. unfold unweighted_mean, zeros3. rewrite Hfold. simpl.
  rewrite INR_IZR_INZ, !Rplus_0_l. reflexivity.
Qed.

(** ** Runs of the scene composer in binary64 *)

(** C9 at two unit squares centred at (0, 0, 0) and (10, 0, 0), with four and
    five vertices: the combined centroid is (5, 0, 0). *)
Lemma scene_centroid_of_two_squares :
  snd (compose_scene [SampleMeshes.square_at_origin; SampleMeshes.square_at_10])
  = (5, 0, 0)%float.
Proof.
  destruct (@scene_centroid_is_unweighted_mean float _
              [SampleMeshes.square_at_origin; SampleMeshes.square_at_10])
    as [Hmean _]; [discriminate|].
  rewrite Hmean. vm_compute. reflexivity.
Defined.

(** C5, refuted as stated: with an empty list, [show] raises
    [EmptyMeshListError] in neither mode. *)
Lemma show_empty_list_not_refused :
  ~ may_raise EmptyMeshListError (show (F := float) (Many []) true false true) /\
  ~ may_raise EmptyMeshListError (show (F := float) (Many []) true true true).
Proof.
  split.
  - simpl. intros (_ & _ & H). exact H.
  - rewrite show_offscreen_NameError. simpl. discriminate.
Qed.

(** The centroid [show] computes for an empty list: 0.0 / 0, a NaN,
    three times. *)
Example centroid_of_no_mesh :
  let '(x, y, z) := snd (compose_scene (F := float) []) in
  (PrimFloat.is_nan x && PrimFloat.is_nan y && PrimFloat.is_nan z)%bool = true.
Proof. vm_compute. reflexivity. Qed.

(** C6, at the failing input: the mesh of the flat 4 by 4 array of zeros is
    built, and the offscreen call on it, whatever centroid trimesh gives the
    mesh and whatever the other flags, raises [NameError] for [os]; it returns
    no pixel buffer. *)
Theorem offscreen_show_of_flat_4x4_raises :
  exists g,
    snd (hmap_to_trimesh Samples.zeros_4x4 NoAxes true) = inr g /\
    forall (c : float * float * float) (print_kcmds plot_image : bool),
      show (One {| geometry := g; centroid := c |}) print_kcmds true plot_image
      = Raise (NameError "os").
Proof.
  eexists. split.
  - vm_compute. reflexivity.
  - intros c pk pi. apply show_offscreen_NameError.
Qed.

(** * Further properties of the mesh builder *)

Lemma nth_error_zip3 {A B C : Type} (a : list A) :
  forall (b : list B) (c : list C) (k : nat),
    nth_error (zip3 a b c) k =
    match nth_error a k, nth_error b k, nth_error c k with
    | Some x, Some y, Some z => Some (x, y, z)
    | _, _, _ => None
    end.
Proof.
  induction a as [|x a IH]; intros b c k.
  - destruct k; reflexivity.
  - destruct b as [|y b]; [destruct k; simpl; [reflexivity | now destruct (nth_error a k)]|].
    destruct c as [|z c].
    + destruct k; simpl; [reflexivity|].
      now destruct (nth_error a k), (nth_error b k).
    + destruct k; simpl; [reflexivity | apply IH].
Qed.

Lemma py_slice_nil {A : Type} (a b : Z) : py_slice a b (@nil A) = [].
Proof.
  unfold py_slice. now rewrite skipn_nil, firstn_nil.
Qed.

Lemma length_zero_flat_map {A B : Type} (f : A -> list B) (l : list A) :
  length (flat_map f l) = 0 -> flat_map f l = [].
Proof. apply length_zero_iff_nil. Qed.

Section BuilderEdges.

Context {F : Type} {FL : Float F}.

(** Without a vertex there is nothing to slice: every strip is empty. *)
Lemma face_loop_no_vertex (ny : Z) (js : list Z) :
  forall acc, face_loop ny [] js acc = inr acc.
Proof.
  induction js as [|j js IH]; intros acc; simpl; [reflexivity|].
  unfold strip_faces. rewrite !py_slice_nil. simpl.
  rewrite IH. now rewrite app_nil_r.
Qed.

(** The assembly on an array without samples, no axes given: a division by
    zero for the 0 by 0 array, and otherwise a mesh without vertices. *)
Lemma assemble_no_sample (nx ny : nat) (z : ndarray F) :
  nx * ny = 0 -> data z = [] ->
  assemble (Z.of_nat nx) (Z.of_nat ny) NoAxes z =
  if (nx =? 0) && (ny =? 0) then inl ZeroDivisionError
  else inr {| vertices := []; faces := [] |}.
Proof.
  intros Hzero Hdata. unfold assemble, coordinate_grids, py_truediv.
  destruct ((nx =? 0) && (ny =? 0)) eqn:Hboth.
  - apply andb_prop in Hboth. destruct Hboth as [Hx Hy].
    apply Nat.eqb_eq in Hx, Hy. subst. reflexivity.
  - assert (Hmax : (Z.max (Z.of_nat nx) (Z.of_nat ny) =? 0)%Z = false).
    { apply Z.eqb_neq. apply andb_false_iff in Hboth.
      destruct Hboth as [H|H]; apply Nat.eqb_neq in H; lia. }
    rewrite Hmax, !Nat2Z.id.
    match goal with |- context [meshgrid_ij ?a ?b] =>
      pose proof (length_meshgrid_ij a b) as [Hgx Hgy];
      destruct (meshgrid_ij a b) as [gx gy] end.
    simpl in Hgx, Hgy. rewrite !length_linspace, Hzero in Hgx, Hgy.
    apply length_zero_iff_nil in Hgx, Hgy.
    unfold flatten. rewrite Hgx, Hgy, Hdata. simpl.
    replace (Z.of_nat nx * Z.of_nat ny)%Z with 0%Z by lia.
    unfold vertex_indices, py_range. simpl.
    now rewrite face_loop_no_vertex.
Qed.

(** The two calls on an array without samples, as stages. *)
Lemma no_sample_stages (z : ndarray F) (sk : bool) (nx ny : nat) :
  wf z -> shape z = [nx; ny] -> nx * ny = 0 ->
  snd (hmap_to_trimesh z NoAxes sk) =
  if sk then inl ValueError
  else assemble (Z.of_nat nx) (Z.of_nat ny) NoAxes z.
Proof.
  intros Hwf Hs Hzero.
  pose proof (@wf_length_2d F z nx ny Hwf Hs) as Hlen.
  assert (Hdata : data z = []) by (apply length_zero_iff_nil; lia).
  rewrite (hmap_to_trimesh_stages z NoAxes sk Hs).
  destruct sk; [now rewrite add_skirt_edit_empty | reflexivity].
Qed.

(** X2.  An array without samples: with [add_skirt] the reduction [z.min()]
    raises [ValueError]; without it the 0 by 0 array divides by zero in
    [nx / max(nx, ny)], and an array with rows or columns but no samples
    gives a mesh without vertices and faces.  The array is not written. *)
Theorem empty_grid_outcomes (z : ndarray F) (nx ny : nat) :
  wf z -> shape z = [nx; ny] -> nx * ny = 0 ->
  hmap_to_trimesh z NoAxes true = (z, inl ValueError) /\
  hmap_to_trimesh z NoAxes false =
    (z, if (nx =? 0) && (ny =? 0) then inl ZeroDivisionError
        else inr {| vertices := []; faces := [] |}).
Proof.
  intros Hwf Hs Hzero.
  pose proof (@wf_length_2d F z nx ny Hwf Hs) as Hlen.
  assert (Hdata : data z = []) by (apply length_zero_iff_nil; lia).
  rewrite !(hmap_to_trimesh_stages z NoAxes _ Hs). split.
  - now rewrite add_skirt_edit_empty.
  - now rewrite assemble_no_sample.
Qed.

(** X1.  Without axes, the call returns a mesh exactly when the array is
    2-dimensional and has a sample or, if no skirt is asked for, at least a
    row or a column. *)
Theorem builder_returns_iff (z : ndarray F) (sk : bool) :
  wf z ->
  (returns (snd (hmap_to_trimesh z NoAxes sk)) <->
   exists nx ny, shape z = [nx; ny] /\ if sk then 0 < nx * ny else 0 < nx + ny).
Proof.
  intros Hwf. split.
  - intros [m Hm].
    destruct (shape z) as [|nx [|ny [|k s]]] eqn:Hs;
      try (rewrite hmap_to_trimesh_not_2d in Hm;
           [discriminate | intros ? ?; congruence]).
    exists nx, ny. split; [reflexivity|].
    destruct (Nat.eq_dec (nx * ny) 0) as [Hzero|Hpos]; [|destruct sk; nia].
    rewrite (no_sample_stages sk Hwf Hs Hzero) in Hm.
    destruct sk; [discriminate|].
    pose proof (@wf_length_2d F z nx ny Hwf Hs) as Hlen.
    rewrite assemble_no_sample in Hm by (try apply length_zero_iff_nil; lia).
    destruct ((nx =? 0) && (ny =? 0)) eqn:Hboth; [discriminate|].
    apply andb_false_iff in Hboth.
    destruct Hboth as [H|H]; apply Nat.eqb_neq in H; lia.
  - intros (nx & ny & Hs & Hsize).
    destruct (Nat.eq_dec (nx * ny) 0) as [Hzero|Hpos].
    + rewrite (no_sample_stages sk Hwf Hs Hzero).
      destruct sk; [lia|].
      pose proof (@wf_length_2d F z nx ny Hwf Hs) as Hlen.
      rewrite assemble_no_sample by (try apply length_zero_iff_nil; lia).
      replace ((nx =? 0) && (ny =? 0)) with false; [now eexists|].
      symmetry. apply andb_false_iff.
      destruct nx; [right; apply Nat.eqb_neq; lia | now left].
    + rewrite (@hmap_to_trimesh_run F FL z NoAxes sk nx ny) by (assumption || nia || exact I).
      now eexists.
Qed.

End BuilderEdges.

Section BuilderShape.

Context {F : Type} {FL : Float F}.

(** On an array with a sample, the call is the skirt edit, if asked for,
    followed by the assembly on the array the edit left. *)
Lemma hmap_to_trimesh_with_sample (z : ndarray F) (ax : axes F) (sk : bool) (nx ny : nat) :
  wf z -> shape z = [nx; ny] -> 1 <= nx -> 1 <= ny ->
  hmap_to_trimesh z ax sk =
  (final_array sk nx ny z,
   assemble (Z.of_nat nx) (Z.of_nat ny) ax (final_array sk nx ny z)).
Proof.
  intros Hwf Hs Hnx Hny.
  pose proof (@wf_length_2d F z nx ny Hwf Hs) as Hlen.
  rewrite (hmap_to_trimesh_stages z ax sk Hs).
  unfold final_array. destruct sk; [|reflexivity].
  assert (Hne : data z <> []).
  { intros He. rewrite He in Hlen. simpl in Hlen. nia. }
  destruct (skirt_floor_defined z Hne) as (lo & hi & _ & _ & Hfloor).
  rewrite Hfloor. now rewrite (@add_skirt_edit_run F FL z nx ny _ Hs Hnx Hny Hfloor).
Qed.

(** With axes, the assembly succeeds exactly when the expanded grids have as
    many entries as the height array. *)
Lemma assemble_with_axes (nx ny : nat) (x y z1 : ndarray F) :
  1 <= ny -> length (data z1) = nx * ny ->
  assemble (Z.of_nat nx) (Z.of_nat ny) (Axes x y) z1 =
  if length (data x) * length (data y) =? nx * ny
  then inr {| vertices := zip3 (fst (grid_columns nx ny (Axes x y)))
                               (snd (grid_columns nx ny (Axes x y))) (flatten z1);
              faces := grid_faces nx ny |}
  else inl ValueError.
Proof.
  intros Hny Hlen. unfold assemble, coordinate_grids, grid_columns.
  pose proof (length_meshgrid_ij x y) as [Hgx Hgy].
  destruct (meshgrid_ij x y) as [gx gy]. simpl in Hgx, Hgy. simpl fst. simpl snd.
  unfold vstack3_T, flatten. rewrite Hgx, Hgy, Hlen, Nat.eqb_refl. simpl.
  destruct (length (data x) * length (data y) =? nx * ny); [|reflexivity].
  now rewrite (faces_of_grid nx Hny).
Qed.

Lemma length_axes_columns (nx ny : nat) (x y : ndarray F) :
  length (fst (grid_columns nx ny (Axes x y))) = length (data x) * length (data y) /\
  length (snd (grid_columns nx ny (Axes x y))) = length (data x) * length (data y).
Proof.
  unfold grid_columns.
  pose proof (length_meshgrid_ij x y) as H.
  destruct (meshgrid_ij x y) as [gx gy]. exact H.
Qed.

(** X3.  With axes given, of whatever shape, the call on an array with a
    sample returns a mesh exactly when [size(x) * size(y)] is the number of
    samples, and raises [ValueError] otherwise; the lengths of [x] and [y] are
    not compared with [nx] and [ny] one by one, and the faces are those of
    the [nx] by [ny] grid. *)
Theorem axes_accepted_by_size (z x y : ndarray F) (sk : bool) (nx ny : nat) :
  wf z -> shape z = [nx; ny] -> 1 <= nx -> 1 <= ny ->
  (length (data x) * length (data y) = nx * ny ->
   exists m, snd (hmap_to_trimesh z (Axes x y) sk) = inr m /\
             length (vertices m) = nx * ny /\
             faces m = grid_faces nx ny) /\
  (length (data x) * length (data y) <> nx * ny ->
   snd (hmap_to_trimesh z (Axes x y) sk) = inl ValueError).
Proof.
  intros Hwf Hs Hnx Hny.
  pose proof (@length_final_array F FL sk nx ny z Hwf Hs) as Hz.
  rewrite (@hmap_to_trimesh_with_sample z (Axes x y) sk nx ny Hwf Hs Hnx Hny). simpl snd.
  rewrite (@assemble_with_axes nx ny x y _ Hny Hz).
  split; intros Hsize.
  - apply Nat.eqb_eq in Hsize. rewrite Hsize. eexists. split; [reflexivity|].
    split; [|reflexivity]. simpl vertices.
    apply Nat.eqb_eq in Hsize.
    destruct (length_axes_columns nx ny x y) as [Hgx Hgy].
    simpl in Hgx, Hgy. rewrite length_zip3; lia.
  - apply Nat.eqb_neq in Hsize. now rewrite Hsize.
Qed.

(** X4.  With 1-dimensional axes of [nx] and [ny] elements the vertex list
    is in row-major order: vertex [i * ny + j] is [(x[i], y[j], z[i, j])],
    with [z] as the call leaves it. *)
Theorem vertex_layout (z x y : ndarray F) (sk : bool) (nx ny i j : nat) :
  wf z -> shape z = [nx; ny] ->
  length (data x) = nx -> length (data y) = ny -> i < nx -> j < ny ->
  exists m xi yj zij,
    snd (hmap_to_trimesh z (Axes x y) sk) = inr m /\
    nth_error (data x) i = Some xi /\
    nth_error (data y) j = Some yj /\
    get2 (fst (hmap_to_trimesh z (Axes x y) sk)) i j = Some zij /\
    nth_error (vertices m) (i * ny + j) = Some (xi, yj, zij).
Proof.
  intros Hwf Hs Hx Hy Hi Hj.
  rewrite (@hmap_to_trimesh_run F FL z (Axes x y) sk nx ny)
    by (assumption || lia || (split; assumption)).
  simpl fst. simpl snd.
  pose proof (@length_final_array F FL sk nx ny z Hwf Hs) as Hz.
  assert (Hsh : shape (final_array sk nx ny z) = [nx; ny]).
  { unfold final_array. destruct sk; [|exact Hs]. now destruct (skirt_floor z). }
  destruct (nth_error (data x) i) as [xi|] eqn:Exi;
    [|apply nth_error_None in Exi; lia].
  destruct (nth_error (data y) j) as [yj|] eqn:Eyj;
    [|apply nth_error_None in Eyj; lia].
  assert (Hz' : wf (final_array sk nx ny z)).
  { unfold wf. rewrite Hsh. unfold flatten in Hz. simpl. lia. }
  destruct (@get2_defined F (final_array sk nx ny z) nx ny i j Hz' Hsh Hi Hj) as [zij Ezij].
  exists (built_mesh sk nx ny (Axes x y) z), xi, yj, zij.
  repeat split; try assumption.
  unfold built_mesh. simpl vertices. rewrite nth_error_zip3.
  unfold grid_columns, meshgrid_ij, flatten. simpl fst. simpl snd.
  rewrite Hy. rewrite (@nth_error_flat_map_repeat F ny (data x) i j Hj), Exi.
  pose proof (@nth_error_flat_map_const F F (data y) (data x) i j) as Hcol.
  rewrite Hx, Hy in Hcol. rewrite (Hcol Hi Hj), Eyj.
  unfold get2 in Ezij. rewrite Hsh in Ezij. now rewrite Ezij.
Qed.

(** X5.  No face names a vertex twice. *)
Theorem faces_name_three_vertices (z : ndarray F) (ax : axes F) (sk : bool) (nx ny : nat) :
  wf z -> shape z = [nx; ny] -> 1 <= nx -> 1 <= ny -> axes_fit nx ny ax ->
  exists m,
    snd (hmap_to_trimesh z ax sk) = inr m /\
    forall a b c, In (a, b, c) (faces m) -> a <> b /\ b <> c /\ a <> c.
Proof.
  intros Hwf Hs Hnx Hny Hfit.
  rewrite (@hmap_to_trimesh_run F FL z ax sk nx ny) by assumption.
  eexists. split; [reflexivity|].
  intros a b c Hin. simpl in Hin. apply in_grid_faces in Hin.
  destruct Hin as (r & k & _ & _ & [Hf|Hf]);
    unfold upper_triangle, lower_triangle in Hf; injection Hf as -> -> ->; lia.
Qed.

(** X6.  From two rows and two columns on, every vertex is named by a face:
    the mesh has no loose vertex. *)
Theorem every_vertex_in_a_face (z : ndarray F) (ax : axes F) (sk : bool) (nx ny : nat) :
  wf z -> shape z = [nx; ny] -> 2 <= nx -> 2 <= ny -> axes_fit nx ny ax ->
  exists m,
    snd (hmap_to_trimesh z ax sk) = inr m /\
    forall v : Z, (0 <= v < Z.of_nat (nx * ny))%Z ->
      exists a b c, In (a, b, c) (faces m) /\ (v = a \/ v = b \/ v = c).
Proof.
  intros Hwf Hs Hnx Hny Hfit.
  rewrite (@hmap_to_trimesh_run F FL z ax sk nx ny) by (assumption || lia).
  eexists. split; [reflexivity|].
  intros v Hv. simpl faces.
  set (k := Z.to_nat v).
  assert (Hk : k < nx * ny) by lia.
  assert (Hr : k / ny < nx) by (apply Nat.Div0.div_lt_upper_bound; lia).
  assert (Hc : k mod ny < ny) by (apply Nat.mod_upper_bound; lia).
  pose proof (Nat.div_mod_eq k ny) as Hsplit.
  set (r := k / ny) in *. set (c := k mod ny) in *.
  assert (Hvk : v = Z.of_nat (r * ny + c)) by lia.
  destruct (Nat.lt_ge_cases r (nx - 1)) as [Hrow|Hrow];
    destruct (Nat.lt_ge_cases c (ny - 1)) as [Hcol|Hcol].
  - exists (flat_index ny r c), (flat_index ny r c + Z.of_nat ny + 1)%Z,
           (flat_index ny r c + 1)%Z.
    split; [|left; exact Hvk].
    apply in_grid_faces. exists r, c. repeat split; try assumption. now left.
  - exists (flat_index ny r (c - 1)), (flat_index ny r (c - 1) + Z.of_nat ny + 1)%Z,
           (flat_index ny r (c - 1) + 1)%Z.
    split; [|right; right; unfold flat_index; lia].
    apply in_grid_faces. exists r, (c - 1). repeat split; try lia. now left.
  - destruct (Nat.eq_dec c 0) as [Hc0|Hc0].
    + exists (flat_index ny (r - 1) 0), (flat_index ny (r - 1) 0 + Z.of_nat ny)%Z,
             (flat_index ny (r - 1) 0 + Z.of_nat ny + 1)%Z.
      split; [|right; left; unfold flat_index; nia].
      apply in_grid_faces. exists (r - 1), 0. repeat split; try lia. now right.
    + exists (flat_index ny (r - 1) (c - 1)),
             (flat_index ny (r - 1) (c - 1) + Z.of_nat ny + 1)%Z,
             (flat_index ny (r - 1) (c - 1) + 1)%Z.
      split; [|right; left; unfold flat_index; nia].
      apply in_grid_faces. exists (r - 1), (c - 1). repeat split; try lia. now left.
  - exists (flat_index ny (r - 1) (c - 1)),
           (flat_index ny (r - 1) (c - 1) + Z.of_nat ny + 1)%Z,
           (flat_index ny (r - 1) (c - 1) + 1)%Z.
    split; [|right; left; unfold flat_index; nia].
    apply in_grid_faces. exists (r - 1), (c - 1). repeat split; try lia. now left.
Qed.

(** X7.  An array with at most two rows or at most two columns has no
    interior: with [add_skirt] every sample is overwritten with the floor
    value, whatever the call then returns. *)
Theorem thin_grid_is_flattened (z : ndarray F) (ax : axes F) (nx ny : nat) :
  wf z -> shape z = [nx; ny] -> 1 <= nx -> 1 <= ny -> nx <= 2 \/ ny <= 2 ->
  exists z0,
    skirt_floor z = inr z0 /\
    forall i j, i < nx -> j < ny ->
      get2 (fst (hmap_to_trimesh z ax true)) i j = Some z0.
Proof.
  intros Hwf Hs Hnx Hny Hthin.
  rewrite (@hmap_to_trimesh_with_sample z ax true nx ny Hwf Hs Hnx Hny). simpl fst.
  pose proof (@wf_length_2d F z nx ny Hwf Hs) as Hlen.
  assert (Hne : data z <> []).
  { intros He. rewrite He in Hlen. simpl in Hlen. nia. }
  destruct (skirt_floor_defined z Hne) as (lo & hi & _ & _ & Hfloor).
  eexists. split; [exact Hfloor|].
  intros i j Hi Hj. unfold final_array. rewrite Hfloor.
  rewrite (@get2_skirted F nx ny _ z i j Hs Hj).
  destruct (@get2_defined F z nx ny i j Hwf Hs Hi Hj) as [old ->]. simpl.
  replace (on_border nx ny i j) with true; [reflexivity|].
  symmetry. unfold on_border. apply orb_true_iff.
  destruct Hthin as [H|H].
  - left. apply orb_true_iff. left. apply orb_true_iff.
    destruct (Nat.eq_dec i 0) as [->|Hi0]; [now left|].
    right. apply Nat.eqb_eq. lia.
  - destruct (Nat.eq_dec j 0) as [->|Hj0].
    + left. apply orb_true_iff. now right.
    + right. apply Nat.eqb_eq. lia.
Qed.

End BuilderShape.

Section SkirtFootprint.

Context {F : Type} {FL : Float F}.

Lemma map_xy_zip3 (a b : list F) :
  forall c c' : list F,
    length c = length c' ->
    map (fun v => fst v) (zip3 a b c) = map (fun v => fst v) (zip3 a b c').
Proof.
  revert b. induction a as [|x a IH]; intros b c c' Hlen; [reflexivity|].
  destruct b as [|y b]; [reflexivity|].
  destruct c as [|h c], c' as [|h' c']; simpl in *; try discriminate; [reflexivity|].
  f_equal. apply IH. lia.
Qed.

(** X19.  The skirt adds no geometry.  Called on equal arrays with and
    without [add_skirt], the builder gives meshes with the same faces and the
    same [(x, y)] for every vertex, and the same vertex altogether for every
    sample that is not on the border: the skirt is the border itself, pushed
    down. *)
Theorem skirt_changes_border_heights_only (z : ndarray F) (ax : axes F) (nx ny : nat) :
  wf z -> shape z = [nx; ny] -> 1 <= nx -> 1 <= ny -> axes_fit nx ny ax ->
  exists ms mn,
    snd (hmap_to_trimesh z ax true) = inr ms /\
    snd (hmap_to_trimesh z ax false) = inr mn /\
    faces ms = faces mn /\
    map (fun v => fst v) (vertices ms) = map (fun v => fst v) (vertices mn) /\
    forall i j, i < nx -> j < ny -> on_border nx ny i j = false ->
      nth_error (vertices ms) (i * ny + j) = nth_error (vertices mn) (i * ny + j).
Proof.
  intros Hwf Hs Hnx Hny Hfit.
  rewrite !(@hmap_to_trimesh_run F FL z ax _ nx ny) by assumption.
  do 2 eexists. split; [reflexivity|]. split; [reflexivity|].
  split; [reflexivity|].
  pose proof (@length_final_array F FL true nx ny z Hwf Hs) as Hzs.
  pose proof (@length_final_array F FL false nx ny z Hwf Hs) as Hzn.
  unfold built_mesh. cbn [vertices snd]. split.
  - apply map_xy_zip3. unfold flatten in *. lia.
  - intros i j Hi Hj Hinner. rewrite !nth_error_zip3.
    replace (nth_error (flatten (final_array true nx ny z)) (i * ny + j))
      with (nth_error (flatten (final_array false nx ny z)) (i * ny + j));
      [reflexivity|].
    unfold final_array, flatten.
    destruct (skirt_floor z) as [e|z0]; [reflexivity|].
    pose proof (@get2_skirted F nx ny z0 z i j Hs Hj) as Hg.
    unfold get2 in Hg. rewrite shape_skirted, Hs in Hg. rewrite Hg, Hinner.
    now destruct (nth_error (data z) (i * ny + j)).
Qed.

End SkirtFootprint.

(** * The skirt and the winding, rounding ignored *)

Lemma lit_five_hundredths : @lit R _ 5 (-2) = (5 / 100)%R.
Proof. reflexivity. Qed.

Lemma amin_amax_real (z : ndarray R) (lo hi : R) :
  amin z = inr lo -> amax z = inr hi ->
  (lo <= hi)%R /\ forall v, In v (data z) -> (lo <= v <= hi)%R.
Proof.
  unfold amin, amax, reduce. destruct (data z) as [|a l]; [discriminate|].
  intros Hlo Hhi. injection Hlo as <-. injection Hhi as <-.
  destruct (fold_left_Rmin_spec l a) as (Hmin_a & Hmin & _).
  destruct (fold_left_Rmax_spec l a) as (Hmax_a & Hmax & _).
  change (@fminimum R Float_real) with Rmin.
  change (@fmaximum R Float_real) with Rmax.
  split; [lra|].
  intros v [<-|Hv]; [lra|]. specialize (Hmin v Hv). specialize (Hmax v Hv). lra.
Qed.

Lemma skirt_floor_real (z : ndarray R) (z0 : R) :
  skirt_floor z = inr z0 ->
  exists lo hi, amin z = inr lo /\ amax z = inr hi /\
                z0 = (lo - 5 / 100 * (hi - lo))%R.
Proof.
  unfold skirt_floor, ptp. destruct (amin z) as [e|lo].
  - destruct (amax z); discriminate.
  - destruct (amax z) as [e|hi]; [discriminate|].
    intros H. injection H as <-. exists lo, hi. repeat split.
Qed.

Lemma in_mapi_from_choice {A : Type} (p : nat -> bool) (v0 : A) (l : list A) :
  forall k v, In v (mapi_from k (fun n old => if p n then v0 else old) l) ->
              v = v0 \/ In v l.
Proof.
  induction l as [|a l IH]; intros k v Hv; simpl in *; [contradiction|].
  destruct Hv as [Hv|Hv].
  - destruct (p k); [now left | right; now left].
  - destruct (IH _ _ Hv) as [H|H]; [now left | right; now right].
Qed.

Lemma in_mask_assign {A : Type} (ny : nat) (p : nat -> nat -> bool) (v0 : A)
    (a : ndarray A) (v : A) :
  In v (data (mask_assign ny p v0 a)) -> v = v0 \/ In v (data a).
Proof.
  unfold mask_assign. simpl.
  apply (@in_mapi_from_choice A (fun n => p (n / ny) (n mod ny))).
Qed.

Lemma in_skirted {A : Type} (nx ny : nat) (z0 : A) (z : ndarray A) (v : A) :
  In v (data (skirted nx ny z0 z)) -> v = z0 \/ In v (data z).
Proof.
  unfold skirted. intros H.
  do 4 (apply in_mask_assign in H; destruct H as [H|H]; [now left|]).
  now right.
Qed.

Lemma get2_in {A : Type} (a : ndarray A) (i j : nat) (v : A) :
  get2 a i j = Some v -> In v (data a).
Proof.
  unfold get2. destruct (shape a) as [|nx [|ny [|k s]]]; try discriminate.
  apply nth_error_In.
Qed.

(** After the skirt edit the floor value is the minimum of the array, and the
    maximum is at or above it and above every interior sample. *)
Lemma skirted_extrema (z : ndarray R) (nx ny : nat) (z0 : R) :
  wf z -> shape z = [nx; ny] -> 1 <= nx -> 1 <= ny -> skirt_floor z = inr z0 ->
  (forall v, In v (data z) -> (z0 <= v)%R) /\
  amin (skirted nx ny z0 z) = inr z0 /\
  exists hi1, amax (skirted nx ny z0 z) = inr hi1 /\ (z0 <= hi1)%R /\
    forall i j v, i < nx -> j < ny -> on_border nx ny i j = false ->
                  get2 z i j = Some v -> (v <= hi1)%R.
Proof.
  intros Hwf Hs Hnx Hny Hfloor.
  destruct (skirt_floor_real z Hfloor) as (lo & hi & Hlo & Hhi & ->).
  destruct (amin_amax_real z Hlo Hhi) as [Hlohi Hall].
  assert (Hbelow : forall v, In v (data z) -> (lo - 5 / 100 * (hi - lo) <= v)%R).
  { intros v Hv. specialize (Hall v Hv). lra. }
  set (z0 := (lo - 5 / 100 * (hi - lo))%R) in *.
  assert (Hcorner : In z0 (data (skirted nx ny z0 z))).
  { apply get2_in with (i := 0) (j := 0).
    rewrite (@get2_skirted R nx ny z0 z 0 0 Hs) by lia.
    destruct (@get2_defined R z nx ny 0 0 Hwf Hs) as [old ->]; [lia | lia |].
    reflexivity. }
  assert (Hge : forall v, In v (data (skirted nx ny z0 z)) -> (z0 <= v)%R).
  { intros v Hv. apply in_skirted in Hv. destruct Hv as [->|Hv]; [lra | now apply Hbelow]. }
  split; [exact Hbelow|]. split.
  - apply reduce_Rmin_attained; assumption.
  - unfold amax, reduce. destruct (data (skirted nx ny z0 z)) as [|a l] eqn:Hd;
      [contradiction|].
    eexists. split; [reflexivity|].
    change (@fmaximum R Float_real) with Rmax.
    destruct (fold_left_Rmax_spec l a) as (Hmax_a & Hmax & _).
    assert (Hup : forall v, In v (a :: l) -> (v <= fold_left Rmax l a)%R).
    { intros v [<-|Hv]; [exact Hmax_a | now apply Hmax]. }
    split.
    + apply Hup. exact Hcorner.
    + intros i j v Hi Hj Hinner Hv. apply Hup. rewrite <- Hd.
      apply get2_in with (i := i) (j := j).
      rewrite (@get2_skirted R nx ny z0 z i j Hs Hj), Hv. simpl. now rewrite Hinner.
Qed.

(** X8.  The floor value lies at or below every sample that was passed, and
    it is the minimum of the array the call leaves: the skirt is the lowest
    part of the mesh. *)
Theorem skirt_floor_is_lowest (z : ndarray R) (ax : axes R) (nx ny : nat) :
  wf z -> shape z = [nx; ny] -> 1 <= nx -> 1 <= ny ->
  exists z0,
    skirt_floor z = inr z0 /\
    (forall i j v, get2 z i j = Some v -> (z0 <= v)%R) /\
    amin (fst (hmap_to_trimesh z ax true)) = inr z0.
Proof.
  intros Hwf Hs Hnx Hny.
  pose proof (@wf_length_2d R z nx ny Hwf Hs) as Hlen.
  assert (Hne : data z <> []).
  { intros He. rewrite He in Hlen. simpl in Hlen. nia. }
  destruct (@skirt_floor_defined R _ z Hne) as (lo & hi & _ & _ & Hfloor).
  destruct (skirted_extrema Hwf Hs Hnx Hny Hfloor) as (Hbelow & Hmin & _).
  eexists. split; [exact Hfloor|]. split.
  - intros i j v Hv. apply Hbelow. now apply get2_in with (i := i) (j := j).
  - rewrite (@hmap_to_trimesh_with_sample R _ z ax true nx ny Hwf Hs Hnx Hny).
    simpl fst. unfold final_array. now rewrite Hfloor.
Qed.

(** X9.  The edit is not idempotent.  A second call on the same array takes
    its floor value from the already skirted data: the new floor is at or
    below the first one, strictly below as soon as an interior sample lies
    above the first floor, and it is what the border holds after the second
    call. *)
Theorem second_call_lowers_the_skirt (z : ndarray R) (ax ax' : axes R) (nx ny : nat) :
  wf z -> shape z = [nx; ny] -> 1 <= nx -> 1 <= ny ->
  let z1 := fst (hmap_to_trimesh z ax true) in
  let z2 := fst (hmap_to_trimesh z1 ax' true) in
  exists z0 z0',
    skirt_floor z = inr z0 /\ skirt_floor z1 = inr z0' /\
    (z0' <= z0)%R /\
    ((exists i j v, i < nx /\ j < ny /\ on_border nx ny i j = false /\
                    get2 z i j = Some v /\ (z0 < v)%R) -> (z0' < z0)%R) /\
    forall i j, i < nx -> j < ny -> on_border nx ny i j = true ->
      get2 z1 i j = Some z0 /\ get2 z2 i j = Some z0'.
Proof.
  intros Hwf Hs Hnx Hny.
  pose proof (@wf_length_2d R z nx ny Hwf Hs) as Hlen.
  assert (Hne : data z <> []).
  { intros He. rewrite He in Hlen. simpl in Hlen. nia. }
  destruct (@skirt_floor_defined R _ z Hne) as (lo & hi & _ & _ & Hfloor).
  set (z0 := fsub lo (fmul (lit 5 (-2)) (fsub hi lo))) in *.
  destruct (skirted_extrema Hwf Hs Hnx Hny Hfloor) as (_ & Hmin & hi1 & Hmax & Hhi1 & Hinner).
  assert (Hz1 : fst (hmap_to_trimesh z ax true) = skirted nx ny z0 z).
  { rewrite (@hmap_to_trimesh_with_sample R _ z ax true nx ny Hwf Hs Hnx Hny).
    simpl fst. unfold final_array. now rewrite Hfloor. }
  cbv zeta. rewrite Hz1.
  set (z1 := skirted nx ny z0 z) in *.
  assert (Hs1 : shape z1 = [nx; ny]) by exact Hs.
  assert (Hwf1 : wf z1).
  { unfold wf. rewrite Hs1. unfold z1. rewrite length_skirted.
    unfold wf in Hwf. now rewrite Hs in Hwf. }
  assert (Hfloor1 : skirt_floor z1 = inr (z0 - 5 / 100 * (hi1 - z0))%R).
  { unfold skirt_floor, ptp. rewrite Hmin, Hmax. reflexivity. }
  rewrite (@hmap_to_trimesh_with_sample R _ z1 ax' true nx ny Hwf1 Hs1 Hnx Hny).
  simpl fst. unfold final_array. rewrite Hfloor1.
  exists z0, (z0 - 5 / 100 * (hi1 - z0))%R.
  split; [exact Hfloor|]. split; [reflexivity|]. split; [lra|]. split.
  - intros (i & j & v & Hi & Hj & Hin & Hv & Hlt).
    specialize (Hinner i j v Hi Hj Hin Hv). lra.
  - intros i j Hi Hj Hb.
    destruct (@get2_defined R z nx ny i j Hwf Hs Hi Hj) as [old Hold].
    assert (H1 : get2 z1 i j = Some z0).
    { unfold z1. rewrite (@get2_skirted R nx ny z0 z i j Hs Hj), Hold. simpl.
      now rewrite Hb. }
    split; [exact H1|].
    rewrite (@get2_skirted R nx ny _ z1 i j Hs1 Hj), H1. simpl. now rewrite Hb.
Qed.

(** The vertex of sample [(i, j)] in the real-number model, no axes given. *)
Lemma real_vertex_xy (z : ndarray R) (sk : bool) (nx ny i j : nat) :
  wf z -> shape z = [nx; ny] -> 2 <= nx -> 2 <= ny -> i < nx -> j < ny ->
  vertex_xy (built_mesh sk nx ny NoAxes z) (flat_index ny i j) =
  Some (lattice_point (INR nx / INR (Nat.max nx ny)) nx i,
        lattice_point (INR ny / INR (Nat.max nx ny)) ny j).
Proof.
  intros Hwf Hs Hnx Hny Hi Hj.
  unfold vertex_xy, flat_index.
  replace (Z.of_nat (i * ny + j) <? 0)%Z with false by (symmetry; apply Z.ltb_ge; lia).
  rewrite Nat2Z.id. unfold built_mesh. cbn [vertices]. rewrite nth_error_zip3.
  destruct (@synthesized_columns_nth R _ nx ny i j Hi Hj) as [Hx Hy].
  rewrite Hx, Hy.
  assert (Hmax : IZR (Z.max (Z.of_nat nx) (Z.of_nat ny)) = INR (Nat.max nx ny)).
  { now rewrite INR_IZR_INZ, Nat2Z.inj_max. }
  cbn [of_int fdiv Float_real]. rewrite Hmax, <- !INR_IZR_INZ.
  rewrite !linspace_real_nth by assumption.
  pose proof (@length_final_array R _ sk nx ny z Hwf Hs) as Hz.
  destruct (nth_error (flatten (final_array sk nx ny z)) (i * ny + j)) as [h|] eqn:Eh.
  - reflexivity.
  - apply nth_error_None in Eh. pose proof (cell_in_range Hi Hj). lia.
Qed.

Lemma lattice_point_step (s : R) (n k : nat) :
  2 <= n ->
  (lattice_point s n (S k) - lattice_point s n k = s / INR (n - 1))%R.
Proof.
  intros Hn. unfold lattice_point. rewrite S_INR. field.
  apply not_0_INR. lia.
Qed.

(** X10.  Without axes, every face turns the same way: seen from above, its
    three vertices in the order of the face list enclose the same positive
    signed area, the area of one grid cell.  No face is degenerate in the
    plane, and none is flipped. *)
Theorem faces_wind_alike (z : ndarray R) (sk : bool) (nx ny : nat) :
  wf z -> shape z = [nx; ny] -> 2 <= nx -> 2 <= ny ->
  exists m,
    snd (hmap_to_trimesh z NoAxes sk) = inr m /\
    let cell := (INR nx / INR (Nat.max nx ny) / INR (nx - 1)
                 * (INR ny / INR (Nat.max nx ny) / INR (ny - 1)))%R in
    (0 < cell)%R /\
    forall a b c, In (a, b, c) (faces m) ->
      exists pa pb pc,
        vertex_xy m a = Some pa /\ vertex_xy m b = Some pb /\ vertex_xy m c = Some pc /\
        doubled_signed_area pa pb pc = cell.
Proof.
  intros Hwf Hs Hnx Hny.
  rewrite (@hmap_to_trimesh_run R _ z NoAxes sk nx ny) by (assumption || lia || exact I).
  eexists. split; [reflexivity|]. cbv zeta.
  assert (Hm : (0 < INR (Nat.max nx ny))%R) by (apply lt_0_INR; lia).
  assert (Hnx0 : (0 < INR nx)%R) by (apply lt_0_INR; lia).
  assert (Hny0 : (0 < INR ny)%R) by (apply lt_0_INR; lia).
  assert (Hdx : (0 < INR (nx - 1))%R) by (apply lt_0_INR; lia).
  assert (Hdy : (0 < INR (ny - 1))%R) by (apply lt_0_INR; lia).
  split.
  { apply Rmult_lt_0_compat; repeat apply Rdiv_lt_0_compat; assumption. }
  intros a b c Hin. simpl faces in Hin. apply in_grid_faces in Hin.
  destruct Hin as (r & k & Hr & Hk & Hf).
  set (sx := (INR nx / INR (Nat.max nx ny))%R).
  set (sy := (INR ny / INR (Nat.max nx ny))%R).
  pose proof (lattice_point_step sx r Hnx) as Hstepx.
  pose proof (lattice_point_step sy k Hny) as Hstepy.
  assert (H00 := @real_vertex_xy z sk nx ny r k Hwf Hs Hnx Hny ltac:(lia) ltac:(lia)).
  assert (H11 := @real_vertex_xy z sk nx ny (S r) (S k) Hwf Hs Hnx Hny ltac:(lia) ltac:(lia)).
  assert (H01 := @real_vertex_xy z sk nx ny r (S k) Hwf Hs Hnx Hny ltac:(lia) ltac:(lia)).
  assert (H10 := @real_vertex_xy z sk nx ny (S r) k Hwf Hs Hnx Hny ltac:(lia) ltac:(lia)).
  fold sx sy in H00, H11, H01, H10.
  destruct Hf as [Hf|Hf]; unfold upper_triangle, lower_triangle in Hf;
    injection Hf as -> -> ->.
  - replace (flat_index ny r k + Z.of_nat ny + 1)%Z with (flat_index ny (S r) (S k))
      by (unfold flat_index; lia).
    replace (flat_index ny r k + 1)%Z with (flat_index ny r (S k))
      by (unfold flat_index; lia).
    rewrite H00, H11, H01. do 3 eexists. repeat split.
    unfold doubled_signed_area. simpl fst. simpl snd.
    unfold Rdiv in *. nra.
  - replace (flat_index ny r k + Z.of_nat ny + 1)%Z with (flat_index ny (S r) (S k))
      by (unfold flat_index; lia).
    replace (flat_index ny r k + Z.of_nat ny)%Z with (flat_index ny (S r) k)
      by (unfold flat_index; lia).
    rewrite H00, H10, H11. do 3 eexists. repeat split.
    unfold doubled_signed_area. simpl fst. simpl snd.
    unfold Rdiv in *. nra.
Qed.

(** * Further properties of the scene composer *)

Section ComposerRuns.

Context {F : Type} {FL : Float F}.

Lemma add_meshes_scene (ms : list (mesh_object F)) :
  forall (sc : scene F) (c : F * F * F),
    fst (add_meshes ms (sc, c)) =
    {| ambient_light := ambient_light sc;
       bg_color := bg_color sc;
       nodes := nodes sc ++ map (fun m => MeshNode m true) ms |}.
Proof.
  induction ms as [|m ms IH]; intros sc c.
  - simpl. rewrite app_nil_r. now destruct sc.
  - unfold add_meshes in *. simpl. rewrite IH. simpl.
    now rewrite <- app_assoc.
Qed.

Lemma compose_scene_nodes (ms : list (mesh_object F)) :
  fst (compose_scene ms) = scene_of ms.
Proof.
  unfold compose_scene.
  pose proof (add_meshes_scene ms empty_scene zeros3) as H.
  destruct (add_meshes ms (empty_scene, zeros3)) as [sc c]. simpl in *.
  now rewrite H.
Qed.

(** The interactive run on a list of meshes. *)
Lemma show_many_interactive (ms : list (mesh_object F)) (print_kcmds plot_image : bool) :
  show (Many ms) print_kcmds false plot_image =
  (if print_kcmds
   then Call (Print F keyboard_cmds) (fun _ => interactive_session (scene_of ms))
   else interactive_session (scene_of ms)).
Proof.
  unfold show. pose proof (compose_scene_nodes ms) as Hsc.
  destruct (compose_scene ms) as [sc c]. simpl in Hsc. subst sc.
  destruct print_kcmds; reflexivity.
Qed.

(** X11.  In interactive mode, whatever the meshes: [show] prints the
    keyboard commands exactly when [print_kcmds] is set, opens one viewer on
    the scene that holds one node per mesh in the order given, and returns
    [None]; a single mesh is treated as the list of that mesh, [plot_image]
    is not looked at, and no statement of [show] raises. *)
Theorem show_interactive_run (ms : list (mesh_object F)) (print_kcmds plot_image : bool) :
  show (Many ms) print_kcmds false plot_image =
    (if print_kcmds
     then Call (Print F keyboard_cmds) (fun _ => interactive_session (scene_of ms))
     else interactive_session (scene_of ms)) /\
  (forall m, show (One m) print_kcmds false plot_image
             = show (Many [m]) print_kcmds false plot_image) /\
  (forall e, ~ may_raise e (show (Many ms) print_kcmds false plot_image)).
Proof.
  split; [apply show_many_interactive|]. split; [reflexivity|].
  intros e. rewrite show_many_interactive. destruct print_kcmds; simpl.
  - intros (_ & _ & H). exact H.
  - intros (_ & H). exact H.
Qed.

End ComposerRuns.

Lemma sum_coordinate_permutation (f : R * R * R -> R) (cs cs' : list (R * R * R)) :
  Permutation cs cs' ->
  fold_right Rplus 0%R (map f cs) = fold_right Rplus 0%R (map f cs').
Proof.
  induction 1 as [|c l l' _ IH|c d l|l l' l'' _ IH1 _ IH2]; simpl.
  - reflexivity.
  - now rewrite IH.
  - lra.
  - now rewrite IH1.
Qed.

(** X12.  Rounding ignored, the combined centroid does not depend on the
    order in which the meshes are given. *)
Theorem scene_centroid_ignores_order (ms ms' : list (mesh_object R)) :
  Permutation ms ms' ->
  snd (compose_scene ms) = snd (compose_scene ms').
Proof.
  intros Hperm.
  rewrite !compose_scene_centroid, !unweighted_mean_real. cbv zeta.
  assert (Hcs : Permutation (map (@centroid R) ms) (map (@centroid R) ms'))
    by now apply Permutation_map.
  rewrite (Permutation_length Hcs).
  now rewrite !(sum_coordinate_permutation _ Hcs).
Qed.

(** * The viewer script *)

Section ViewerEdges.

Context {F : Type} {FL : Float F}.

Variable trimesh_centroid : Trimesh F -> F * F * F.

(** X13.  A file whose number of samples is not a perfect square is refused
    by the reshape: after the line with the file name the script raises
    [ValueError]; nothing is rescaled, built or shown. *)
Theorem viewer_refuses_non_square (fname : string) (w : list F) :
  (forall n, n * n <> length w) ->
  viewer_main trimesh_centroid fname w =
  Call (Print F ("fname: " ++ fname)) (fun _ => Raise ValueError).
Proof.
  intros Hsq. unfold viewer_main, reshape_square.
  replace (Nat.sqrt (length w) * Nat.sqrt (length w) =? length w) with false
    by (symmetry; apply Nat.eqb_neq; apply Hsq).
  reflexivity.
Qed.

(** A file without samples passes the reshape, to a 0 by 0 array; the
    script prints both lines and then raises [ValueError] in [w.min()]. *)
Lemma viewer_on_empty_file (fname : string) :
  viewer_main trimesh_centroid fname [] =
  Call (Print F ("fname: " ++ fname))
       (fun _ => Call (Print F "shape: (0, 0)") (fun _ => Raise ValueError)).
Proof. reflexivity. Qed.

End ViewerEdges.

Lemma amin_attained (z : ndarray R) (lo : R) : amin z = inr lo -> In lo (data z).
Proof.
  unfold amin, reduce. destruct (data z) as [|a l]; [discriminate|].
  intros H. injection H as <-.
  change (@fminimum R Float_real) with Rmin.
  destruct (fold_left_Rmin_spec l a) as (_ & _ & [->|Hin]); [now left | now right].
Qed.

Lemma amax_attained (z : ndarray R) (hi : R) : amax z = inr hi -> In hi (data z).
Proof.
  unfold amax, reduce. destruct (data z) as [|a l]; [discriminate|].
  intros H. injection H as <-.
  change (@fmaximum R Float_real) with Rmax.
  destruct (fold_left_Rmax_spec l a) as (_ & _ & [->|Hin]); [now left | now right].
Qed.

Lemma lit_two_tenths : @lit R _ 2 (-1) = (2 / 10)%R.
Proof. reflexivity. Qed.

(** The rescaled array of an array that is not constant, rounding ignored. *)
Lemma rescale_real (w : ndarray R) (lo hi : R) :
  amin w = inr lo -> amax w = inr hi -> (lo < hi)%R ->
  let w' := {| shape := shape w;
               data := map (fun v => (2 / 10 * (v - lo) / (hi - lo))%R) (data w) |} in
  rescale w = inr w' /\
  amin w' = inr 0%R /\ amax w' = inr (2 / 10)%R /\
  forall v, In v (data w') -> (0 <= v <= 2 / 10)%R.
Proof.
  intros Hlo Hhi Hlt w'.
  destruct (amin_amax_real w Hlo Hhi) as [_ Hall].
  assert (Hrange : forall v, In v (data w') -> (0 <= v <= 2 / 10)%R).
  { intros v Hv. unfold w' in Hv. simpl in Hv. apply in_map_iff in Hv.
    destruct Hv as (u & <- & Hu). specialize (Hall u Hu).
    assert (Hq : (2 / 10 * (u - lo) / (hi - lo) * (hi - lo) = 2 / 10 * (u - lo))%R)
      by (field; lra).
    split; nra. }
  split; [|split; [|split]].
  - unfold rescale. rewrite Hlo, Hhi. reflexivity.
  - apply reduce_Rmin_attained; [|intros v Hv; now apply Hrange].
    unfold w'. simpl. apply in_map_iff. exists lo.
    split; [field; lra | now apply amin_attained].
  - apply reduce_Rmax_attained; [|intros v Hv; now apply Hrange].
    unfold w'. simpl. apply in_map_iff. exists hi.
    split; [field; lra | now apply amax_attained].
  - exact Hrange.
Qed.

(** X14.  Rounding ignored, the rescaling of an array that is not constant
    keeps the shape and maps the samples onto [0, 0.2]: the minimum of the
    result is 0, its maximum 0.2, and the order of two samples is kept. *)
Theorem rescale_spans_fifth (w : ndarray R) (lo hi : R) :
  amin w = inr lo -> amax w = inr hi -> (lo < hi)%R ->
  exists w',
    rescale w = inr w' /\ shape w' = shape w /\
    amin w' = inr 0%R /\ amax w' = inr (2 / 10)%R /\
    forall k l u v, nth_error (data w) k = Some u -> nth_error (data w) l = Some v ->
      exists u' v', nth_error (data w') k = Some u' /\ nth_error (data w') l = Some v' /\
                    (0 <= u' <= 2 / 10)%R /\ ((u <= v)%R -> (u' <= v')%R).
Proof.
  intros Hlo Hhi Hlt.
  destruct (rescale_real w Hlo Hhi Hlt) as (Hres & Hmin & Hmax & Hrange).
  eexists. split; [exact Hres|]. split; [reflexivity|].
  split; [exact Hmin|]. split; [exact Hmax|].
  intros k l u v Hu Hv. simpl data.
  rewrite !nth_error_map, Hu, Hv. simpl.
  do 2 eexists. split; [reflexivity|]. split; [reflexivity|]. split.
  - apply Hrange. simpl. apply in_map_iff. exists u.
    split; [reflexivity | now apply nth_error_In with (n := k)].
  - intros Huv.
    assert (Hpos : (0 < / (hi - lo))%R) by (apply Rinv_0_lt_compat; lra).
    unfold Rdiv. apply Rmult_le_compat_r; [lra|]. lra.
Qed.

(** X15.  Rounding ignored, on a file of [n * n] samples ([n >= 2]) that are
    not all equal the script runs through: it prints the file name, the
    shape and the keyboard commands and opens the interactive viewer on the
    one mesh built from the rescaled samples.  That mesh has [n * n] vertices
    and [2 * (n - 1) * (n - 1)] faces; its border vertices lie at height
    -0.01 and the others between 0 and 0.2. *)
Theorem viewer_shows_skirted_mesh (trimesh_centroid : Trimesh R -> R * R * R)
    (fname : string) (w : list R) (n : nat) :
  2 <= n -> length w = n * n -> (exists a b, In a w /\ In b w /\ (a < b)%R) ->
  exists g,
    (forall answer,
       run answer (viewer_main trimesh_centroid fname w) =
       run answer
         (Call (Print R ("fname: " ++ fname)) (fun _ =>
          Call (Print R ("shape: (" ++ py_str_nat n ++ ", " ++ py_str_nat n ++ ")")) (fun _ =>
          Call (Print R keyboard_cmds) (fun _ =>
          interactive_session
            (scene_of [{| geometry := g; centroid := trimesh_centroid g |}])))))) /\
    length (vertices g) = n * n /\
    length (faces g) = 2 * (n - 1) * (n - 1) /\
    forall i j, i < n -> j < n ->
      exists x y h,
        nth_error (vertices g) (i * n + j) = Some (x, y, h) /\
        if on_border n n i j then h = (- 1 / 100)%R else (0 <= h <= 2 / 10)%R.
Proof.
  intros Hn Hlen (a & b & Ha & Hb & Hab).
  set (w2 := {| shape := [n; n]; data := w |}).
  assert (Hne : data w2 <> []).
  { simpl. intros He. rewrite He in Ha. contradiction. }
  destruct (@skirt_floor_defined R _ w2 Hne) as (lo & hi & Hlo & Hhi & _).
  destruct (amin_amax_real w2 Hlo Hhi) as [_ Hall].
  assert (Hlt : (lo < hi)%R).
  { pose proof (Hall a Ha). pose proof (Hall b Hb). lra. }
  destruct (rescale_real w2 Hlo Hhi Hlt) as (Hres & Hmin & Hmax & Hrange).
  set (w3 := {| shape := shape w2;
                data := map (fun v => (2 / 10 * (v - lo) / (hi - lo))%R) (data w2) |}) in *.
  assert (Hs3 : shape w3 = [n; n]) by reflexivity.
  assert (Hwf3 : wf w3).
  { unfold wf. simpl. rewrite length_map. lia. }
  assert (Hfloor : skirt_floor w3 = inr (- 1 / 100)%R).
  { unfold skirt_floor, ptp. rewrite Hmin, Hmax.
    cbn [fsub fmul Float_real]. rewrite lit_five_hundredths. f_equal. field. }
  pose proof (@hmap_to_trimesh_run R _ w3 NoAxes true n n Hwf3 Hs3
                ltac:(lia) ltac:(lia) I) as Hrun.
  exists (built_mesh true n n NoAxes w3). split; [|split; [|split]].
  - intros answer. unfold viewer_main.
    rewrite Hlen, Nat.sqrt_square. unfold reshape_square.
    rewrite Hlen, Nat.eqb_refl. cbn [pbind call of_result run].
    fold w2. rewrite Hres. cbn [pbind of_result].
    rewrite Hrun. cbn [snd pbind of_result].
    change (show (One ?m) true false true) with (show (Many [m]) true false true).
    now rewrite show_many_interactive.
  - apply length_built_vertices; [exact Hwf3 | exact Hs3 | exact I].
  - simpl. apply length_grid_faces.
  - intros i j Hi Hj.
    destruct (@get2_defined R w3 n n i j Hwf3 Hs3 Hi Hj) as [old Hold].
    assert (Hin : In old (data w3)) by now apply get2_in with (i := i) (j := j).
    specialize (Hrange old Hin).
    assert (Hh : nth_error (flatten (final_array true n n w3)) (i * n + j) =
                 Some (if on_border n n i j then (- 1 / 100)%R else old)).
    { unfold final_array. rewrite Hfloor.
      pose proof (@get2_skirted R n n (- 1 / 100)%R w3 i j Hs3 Hj) as Hg.
      unfold get2 in Hg at 1. rewrite shape_skirted, Hs3 in Hg.
      unfold flatten. rewrite Hg, Hold. reflexivity. }
    destruct (@synthesized_columns_nth R _ n n i j Hi Hj) as [Hx Hy].
    destruct (nth_error (linspace (of_int 0) _ n) i) as [x|] eqn:Ex;
      [|apply nth_error_None in Ex; rewrite length_linspace in Ex; lia].
    destruct (nth_error (linspace (of_int 0) _ n) j) as [y|] eqn:Ey;
      [|apply nth_error_None in Ey; rewrite length_linspace in Ey; lia].
    exists x, y, (if on_border n n i j then (- 1 / 100)%R else old).
    split.
    + unfold built_mesh. cbn [vertices]. rewrite nth_error_zip3, Hx, Hy, Hh. reflexivity.
    + destruct (on_border n n i j); [reflexivity | exact Hrange].
Qed.

(** * The maintenance scripts *)

Module LicenseFacts.

Import License.
Open Scope string_scope.

(** Whatever follows it, a text that starts with [STUB] has the first line of
    [STUB]. *)
Lemma has_header_stub_prefix (content : string) : has_header (STUB ++ content) = true.
Proof. reflexivity. Qed.

Lemma has_header_after (name content : string) :
  has_header (file_after content (snd (license_file name content))) = true.
Proof.
  unfold license_file. destruct (has_header content) eqn:E; simpl.
  - exact E.
  - apply has_header_stub_prefix.
Qed.

Lemma license_file_with_header (name content : string) :
  has_header content = true -> license_file name content = (["file:  " ++ name], None).
Proof. intros H. unfold license_file. now rewrite H. Qed.

(** X16.  After the loop body a file starts with the first header line and
    still ends with all of its previous text: either it is unchanged, or
    [STUB] was put in front of it and written.  Handled again, under any
    name, it is not written. *)
Theorem license_header_added_once (name name' content : string) :
  let after := file_after content (snd (license_file name content)) in
  has_header after = true /\
  (after = content /\ snd (license_file name content) = None \/
   after = STUB ++ content /\ snd (license_file name content) = Some after) /\
  snd (license_file name' after) = None.
Proof.
  cbv zeta. split; [apply has_header_after|]. split.
  - unfold license_file. destruct (has_header content); simpl; [now left | now right].
  - rewrite license_file_with_header; [reflexivity | apply has_header_after].
Qed.

Lemma license_path_files_stable (path path' : string) (files : list (string * string)) :
  snd (license_path path' (snd (license_path path files))) = snd (license_path path files).
Proof.
  unfold license_path. cbn [fst snd]. rewrite map_map. apply map_ext.
  intros [name content]. cbn [fst snd].
  rewrite (@license_file_with_header name _ (has_header_after name content)).
  reflexivity.
Qed.

Lemma license_path_quiet (path path' : string) (files : list (string * string)) :
  ~ In "adding header..." (fst (license_path path' (snd (license_path path files)))).
Proof.
  unfold license_path. cbn [fst snd]. intros [H|H]; [discriminate|].
  apply in_flat_map in H. destruct H as ([name content] & Hin & Hline).
  apply in_map_iff in Hin. destruct Hin as ([name0 content0] & Heq & _).
  cbn [fst snd] in Heq. injection Heq as <- <-. cbn [fst snd] in Hline.
  rewrite (@license_file_with_header name0 _ (has_header_after name0 content0)) in Hline.
  destruct Hline as [H|[]]. discriminate.
Qed.

(** X17.  The script is idempotent: run on the files as a first run left
    them, it changes no file and does not print "adding header...". *)
Theorem license_script_idempotent (trees : list (string * list (string * string))) :
  let once := snd (license_script trees) in
  snd (license_script once) = once /\
  ~ In "adding header..." (fst (license_script once)).
Proof.
  cbv zeta. unfold license_script. cbn [fst snd]. split.
  - rewrite map_map. apply map_ext. intros [path files]. cbn [fst snd].
    now rewrite license_path_files_stable.
  - intros H. apply in_flat_map in H. destruct H as ([path files] & Hin & Hline).
    apply in_map_iff in Hin. destruct Hin as ([path0 files0] & Heq & _).
    cbn [fst snd] in Heq. injection Heq as <- <-.
    exact (@license_path_quiet path0 path0 files0 Hline).
Qed.

End LicenseFacts.

Module CMakeFacts.

Import CMake.
Open Scope string_scope.

Lemma append_assoc (a b c : string) : (a ++ b) ++ c = a ++ (b ++ c).
Proof. induction a as [|x a IH]; simpl; [reflexivity | now rewrite IH]. Qed.

Lemma basename_from_plain (name : string) :
  forall acc, has_slash name = false -> basename_from acc name = acc ++ name.
Proof.
  induction name as [|c name IH]; intros acc Hno; simpl in *.
  - induction acc as [|x acc IHa]; simpl; [reflexivity | now rewrite <- IHa].
  - apply orb_false_iff in Hno. destruct Hno as [Hc Hrest].
    rewrite Hc, IH by exact Hrest. now rewrite append_assoc.
Qed.

Lemma basename_from_after_slash (dir rest : string) :
  forall acc, basename_from acc (dir ++ String slash rest) = basename_from "" rest.
Proof.
  induction dir as [|c dir IH]; intros acc; simpl.
  - reflexivity.
  - destruct (Ascii.eqb c slash); apply IH.
Qed.

Lemma ends_with_slash_app (a : string) (c : Ascii.ascii) (b : string) :
  ends_with_slash (a ++ String c b) = ends_with_slash (String c b).
Proof.
  induction a as [|x a IH]; [reflexivity|].
  simpl append. destruct (a ++ String c b) eqn:E.
  - destruct a; discriminate.
  - rewrite <- E in *. simpl. rewrite E. rewrite <- E. exact IH.
Qed.

Lemma ends_with_slash_plain (name : string) :
  has_slash name = false -> ends_with_slash name = false.
Proof.
  induction name as [|c name IH]; intros Hno; [reflexivity|].
  simpl in Hno. apply orb_false_iff in Hno. destruct Hno as [Hc Hrest].
  destruct name as [|d name]; [exact Hc | now apply IH].
Qed.

(** The loop body on a directory [dir/name] whose last component is not
    empty. *)
Lemma cmake_for_dir_named (dir name : string) :
  has_slash name = false -> name <> "" ->
  cmake_for_dir (dir ++ "/" ++ name) =
  (dir ++ "/" ++ name ++ "/CMakeLists.txt",
   "add_executable(" ++ name ++ " " ++ name ++ ".cpp)" ++ String License.newline
   ("target_link_libraries(" ++ name ++ " highmap)" ++ String License.newline "")).
Proof.
  intros Hno Hne. unfold cmake_for_dir, basename.
  change (dir ++ "/" ++ name) with (dir ++ String slash name).
  rewrite basename_from_after_slash, basename_from_plain by exact Hno.
  simpl append at 1. f_equal.
  unfold path_join.
  destruct (dir ++ String slash name) as [|c0 s0] eqn:E.
  - destruct dir; discriminate.
  - rewrite <- E. rewrite ends_with_slash_app.
    destruct name as [|c name]; [contradiction|].
    assert (Hend : ends_with_slash (String slash (String c name)) = false).
    { change (ends_with_slash (String c name) = false).
      now apply ends_with_slash_plain. }
    rewrite Hend. rewrite append_assoc. reflexivity.
Qed.

(** X18.  For every directory [dir/name] that [glob] finds, [name] not
    empty, the script writes [dir/name/CMakeLists.txt], and that file declares
    the executable [name], built from [name.cpp] and linked with [highmap]:
    the target is named after the directory itself, whatever lies above it.
    The script writes one file per directory found and none for the other
    paths. *)
Theorem cmake_target_is_directory_name (found : list (string * bool)) (dir name : string) :
  has_slash name = false -> name <> "" -> In (dir ++ "/" ++ name, true) found ->
  In (dir ++ "/" ++ name ++ "/CMakeLists.txt",
      "add_executable(" ++ name ++ " " ++ name ++ ".cpp)" ++ String License.newline
      ("target_link_libraries(" ++ name ++ " highmap)" ++ String License.newline ""))
     (snd (cmake_script found)) /\
  length (snd (cmake_script found)) = length (filter snd found).
Proof.
  intros Hno Hne Hin. unfold cmake_script. cbn [snd]. split.
  - rewrite <- (cmake_for_dir_named dir Hno Hne).
    apply in_map. apply in_map_iff. exists (dir ++ "/" ++ name, true).
    split; [reflexivity|]. apply filter_In. now split.
  - now rewrite !length_map.
Qed.

End CMakeFacts.

(** * The further properties at sample inputs *)

Lemma builder_returns_iff_witness :
  returns (snd (hmap_to_trimesh Samples.grid_2x3 NoAxes true)) <->
  exists nx ny, shape Samples.grid_2x3 = [nx; ny] /\ 0 < nx * ny.
Proof.
  apply (@builder_returns_iff float _ Samples.grid_2x3 true). reflexivity.
Defined.

Lemma empty_grid_outcomes_witness :
  hmap_to_trimesh MoreSamples.grid_2x0 NoAxes true
    = (MoreSamples.grid_2x0, inl ValueError) /\
  hmap_to_trimesh MoreSamples.grid_2x0 NoAxes false
    = (MoreSamples.grid_2x0,
       if (2 =? 0) && (0 =? 0) then inl ZeroDivisionError
       else inr {| vertices := []; faces := [] |}).
Proof.
  apply (@empty_grid_outcomes float _ MoreSamples.grid_2x0 2 0); reflexivity.
Defined.

(** Axes given the wrong way round, [x] with three elements and [y] with two
    for a 2 by 3 array, are accepted. *)
Lemma axes_accepted_by_size_witness :
  (length (data MoreSamples.axis_3) * length (data MoreSamples.axis_2) = 2 * 3 ->
   exists m,
     snd (hmap_to_trimesh Samples.grid_2x3
            (Axes MoreSamples.axis_3 MoreSamples.axis_2) false) = inr m /\
     length (vertices m) = 2 * 3 /\
     faces m = grid_faces 2 3) /\
  (length (data MoreSamples.axis_3) * length (data MoreSamples.axis_2) <> 2 * 3 ->
   snd (hmap_to_trimesh Samples.grid_2x3
          (Axes MoreSamples.axis_3 MoreSamples.axis_2) false) = inl ValueError).
Proof.
  apply (@axes_accepted_by_size float _ Samples.grid_2x3
           MoreSamples.axis_3 MoreSamples.axis_2 false 2 3);
    [reflexivity | reflexivity | lia | lia].
Defined.

Lemma vertex_layout_witness :
  exists m xi yj zij,
    snd (hmap_to_trimesh Samples.grid_2x3
           (Axes MoreSamples.axis_2 MoreSamples.axis_3) false) = inr m /\
    nth_error (data MoreSamples.axis_2) 1 = Some xi /\
    nth_error (data MoreSamples.axis_3) 2 = Some yj /\
    get2 (fst (hmap_to_trimesh Samples.grid_2x3
                 (Axes MoreSamples.axis_2 MoreSamples.axis_3) false)) 1 2 = Some zij /\
    nth_error (vertices m) (1 * 3 + 2) = Some (xi, yj, zij).
Proof.
  apply (@vertex_layout float _ Samples.grid_2x3
           MoreSamples.axis_2 MoreSamples.axis_3 false 2 3 1 2);
    [reflexivity | reflexivity | reflexivity | reflexivity | lia | lia].
Defined.

Lemma faces_name_three_vertices_witness :
  exists m,
    snd (hmap_to_trimesh Samples.grid_3x3 NoAxes true) = inr m /\
    forall a b c, In (a, b, c) (faces m) -> a <> b /\ b <> c /\ a <> c.
Proof.
  apply (@faces_name_three_vertices float _ Samples.grid_3x3 NoAxes true 3 3);
    [reflexivity | reflexivity | lia | lia | exact I].
Defined.

Lemma every_vertex_in_a_face_witness :
  exists m,
    snd (hmap_to_trimesh Samples.grid_2x3 NoAxes true) = inr m /\
    forall v : Z, (0 <= v < Z.of_nat (2 * 3))%Z ->
      exists a b c, In (a, b, c) (faces m) /\ (v = a \/ v = b \/ v = c).
Proof.
  apply (@every_vertex_in_a_face float _ Samples.grid_2x3 NoAxes true 2 3);
    [reflexivity | reflexivity | lia | lia | exact I].
Defined.

Lemma thin_grid_is_flattened_witness :
  exists z0,
    skirt_floor Samples.grid_2x3 = inr z0 /\
    forall i j, i < 2 -> j < 3 ->
      get2 (fst (hmap_to_trimesh Samples.grid_2x3 NoAxes true)) i j = Some z0.
Proof.
  apply (@thin_grid_is_flattened float _ Samples.grid_2x3 NoAxes 2 3);
    [reflexivity | reflexivity | lia | lia | left; lia].
Defined.

Lemma skirt_floor_is_lowest_witness :
  exists z0,
    skirt_floor MoreRealSamples.bump_3x3 = inr z0 /\
    (forall i j v, get2 MoreRealSamples.bump_3x3 i j = Some v -> (z0 <= v)%R) /\
    amin (fst (hmap_to_trimesh MoreRealSamples.bump_3x3 NoAxes true)) = inr z0.
Proof.
  apply (@skirt_floor_is_lowest MoreRealSamples.bump_3x3 NoAxes 3 3);
    [reflexivity | reflexivity | lia | lia].
Defined.

Lemma second_call_lowers_the_skirt_witness :
  exists z0 z0',
    skirt_floor MoreRealSamples.bump_3x3 = inr z0 /\
    skirt_floor (fst (hmap_to_trimesh MoreRealSamples.bump_3x3 NoAxes true)) = inr z0' /\
    (z0' <= z0)%R /\
    ((exists i j v, i < 3 /\ j < 3 /\ on_border 3 3 i j = false /\
                    get2 MoreRealSamples.bump_3x3 i j = Some v /\ (z0 < v)%R) ->
     (z0' < z0)%R) /\
    forall i j, i < 3 -> j < 3 -> on_border 3 3 i j = true ->
      get2 (fst (hmap_to_trimesh MoreRealSamples.bump_3x3 NoAxes true)) i j = Some z0 /\
      get2 (fst (hmap_to_trimesh
                   (fst (hmap_to_trimesh MoreRealSamples.bump_3x3 NoAxes true))
                   NoAxes true)) i j = Some z0'.
Proof.
  apply (@second_call_lowers_the_skirt MoreRealSamples.bump_3x3 NoAxes NoAxes 3 3);
    [reflexivity | reflexivity | lia | lia].
Defined.

Lemma faces_wind_alike_witness :
  exists m,
    snd (hmap_to_trimesh RealSamples.flat_2x3 NoAxes false) = inr m /\
    let cell := (INR 2 / INR (Nat.max 2 3) / INR (2 - 1)
                 * (INR 3 / INR (Nat.max 2 3) / INR (3 - 1)))%R in
    (0 < cell)%R /\
    forall a b c, In (a, b, c) (faces m) ->
      exists pa pb pc,
        vertex_xy m a = Some pa /\ vertex_xy m b = Some pb /\ vertex_xy m c = Some pc /\
        doubled_signed_area pa pb pc = cell.
Proof.
  apply (@faces_wind_alike RealSamples.flat_2x3 false 2 3);
    [reflexivity | reflexivity | lia | lia].
Defined.

Lemma scene_centroid_ignores_order_witness :
  snd (compose_scene [MoreRealSamples.point_at_origin; MoreRealSamples.point_at_10])
  = snd (compose_scene [MoreRealSamples.point_at_10; MoreRealSamples.point_at_origin]).
Proof.
  apply (@scene_centroid_ignores_order
           [MoreRealSamples.point_at_origin; MoreRealSamples.point_at_10]
           [MoreRealSamples.point_at_10; MoreRealSamples.point_at_origin]).
  apply perm_swap.
Defined.

Lemma viewer_refuses_non_square_witness :
  viewer_main (fun _ : Trimesh float => (0, 0, 0)%float) "/tmp/hmap.bin"
              [1; 2; 3]%float =
  Call (Print float ("fname: " ++ "/tmp/hmap.bin")) (fun _ => Raise ValueError).
Proof.
  apply (@viewer_refuses_non_square float _ (fun _ => (0, 0, 0)%float)
           "/tmp/hmap.bin" [1; 2; 3]%float).
  intros n. simpl. destruct n as [|[|n]]; simpl; lia.
Defined.

Lemma rescale_spans_fifth_witness :
  exists w',
    rescale MoreRealSamples.pair_0_1 = inr w' /\
    shape w' = shape MoreRealSamples.pair_0_1 /\
    amin w' = inr 0%R /\ amax w' = inr (2 / 10)%R /\
    forall k l u v,
      nth_error (data MoreRealSamples.pair_0_1) k = Some u ->
      nth_error (data MoreRealSamples.pair_0_1) l = Some v ->
      exists u' v', nth_error (data w') k = Some u' /\ nth_error (data w') l = Some v' /\
                    (0 <= u' <= 2 / 10)%R /\ ((u <= v)%R -> (u' <= v')%R).
Proof.
  apply (@rescale_spans_fifth MoreRealSamples.pair_0_1 0%R 1%R).
  - unfold amin. simpl. f_equal. apply Rmin_left. lra.
  - unfold amax. simpl. f_equal. apply Rmax_right. lra.
  - lra.
Defined.

Lemma viewer_shows_skirted_mesh_witness :
  exists g,
    (forall answer,
       run answer (viewer_main (fun _ => (0, 0, 0)%R) "/tmp/hmap.bin"
                               MoreRealSamples.four_samples) =
       run answer
         (Call (Print R ("fname: " ++ "/tmp/hmap.bin")) (fun _ =>
          Call (Print R ("shape: (" ++ py_str_nat 2 ++ ", " ++ py_str_nat 2 ++ ")")) (fun _ =>
          Call (Print R keyboard_cmds) (fun _ =>
          interactive_session
            (scene_of [{| geometry := g; centroid := (0, 0, 0)%R |}])))))) /\
    length (vertices g) = 2 * 2 /\
    length (faces g) = 2 * (2 - 1) * (2 - 1) /\
    forall i j, i < 2 -> j < 2 ->
      exists x y h,
        nth_error (vertices g) (i * 2 + j) = Some (x, y, h) /\
        if on_border 2 2 i j then h = (- 1 / 100)%R else (0 <= h <= 2 / 10)%R.
Proof.
  apply (@viewer_shows_skirted_mesh (fun _ => (0, 0, 0)%R) "/tmp/hmap.bin"
           MoreRealSamples.four_samples 2); [lia | reflexivity |].
  exists 0%R, 1%R. simpl. split; [now left|]. split; [right; now left | lra].
Defined.

Lemma cmake_target_is_directory_name_witness :
  In ("examples" ++ "/" ++ "ex_hello" ++ "/CMakeLists.txt",
      "add_executable(" ++ "ex_hello" ++ " " ++ "ex_hello" ++ ".cpp)"
      ++ String License.newline
           ("target_link_libraries(" ++ "ex_hello" ++ " highmap)"
            ++ String License.newline ""))%string
     (snd (CMake.cmake_script
             [("examples/README.md", false); ("examples/ex_hello", true)]%string)) /\
  length (snd (CMake.cmake_script
                 [("examples/README.md", false); ("examples/ex_hello", true)]%string))
  = length (filter snd [("examples/README.md", false); ("examples/ex_hello", true)]%string).
Proof.
  apply (@CMakeFacts.cmake_target_is_directory_name
           [("examples/README.md", false); ("examples/ex_hello", true)]%string
           "examples" "ex_hello");
    [reflexivity | discriminate | right; left; reflexivity].
Defined.

Lemma skirt_changes_border_heights_only_witness :
  exists ms mn,
    snd (hmap_to_trimesh Samples.grid_3x3 NoAxes true) = inr ms /\
    snd (hmap_to_trimesh Samples.grid_3x3 NoAxes false) = inr mn /\
    faces ms = faces mn /\
    map (fun v => fst v) (vertices ms) = map (fun v => fst v) (vertices mn) /\
    forall i j, i < 3 -> j < 3 -> on_border 3 3 i j = false ->
      nth_error (vertices ms) (i * 3 + j) = nth_error (vertices mn) (i * 3 + j).
Proof.
  apply (@skirt_changes_border_heights_only float _ Samples.grid_3x3 NoAxes 3 3);
    [reflexivity | reflexivity | lia | lia | exact I].
Defined.
